(** * Phone-line contracts: a shallow embedding of [contract.py]

    The three billing policies of [contract.py] (month-to-month, term and
    prepaid contracts) are embedded as functions over explicit contract
    records and a store of [Bill] objects.

    Conventions of the embedding.
    - Python [int]s are [Z]; Python [float]s are idealised as rationals
      [Q]: a float constant is the rational its binary64 value is, and
      arithmetic on floats is taken without rounding, so
      [ceil(x / 60.0)] is [Qceiling (x / 60)].  An amount that depends
      on a rate per minute is stated as what [get_cost] gives on the
      bill, never as a closed form in the rate.
    - A [Bill] is a mutable object shared between the driver and the
      contract: bills live in a store indexed by references, and the
      contract's [bill] attribute holds a reference (or [None]).
    - A method is a computation in a state-and-exception monad over the
      store; the receiver [self] is passed in and its updated value is
      returned with the method's result.
    - Reading an attribute of [None], or an attribute that was never
      assigned, raises [AttributeError]. *)

From Stdlib Require Import ZArith QArith Qround Lia Lqa String List.
From stdpp Require Import base option gmap.

Local Open Scope Z_scope.

(** ** Exceptions and the method monad *)

Inductive exn : Type :=
| AttributeError
| NotImplementedError
| DanglingReference.  (* no Python counterpart: a reference to no object *)

Inductive result (A : Type) : Type :=
| Ok (a : A)
| Raise (e : exn).
Arguments Ok {A} a.
Arguments Raise {A} e.

(** Modelled from the spec: the [Bill] accumulator of [bill.py], which is
    not among the sources.  Section 6 of the specification gives its
    interface: set a rate plan and per-minute cost, add a fixed cost, add
    billed (cost-accruing) minutes, add free (non-cost-accruing) minutes
    tracked separately, read the total cost; the end-to-end property fixes
    the total as fixed cost plus billed minutes times the rate. *)
Record Bill : Type := mkBill {
  billed_min : Z;
  free_min : Z;
  min_rate : Q;
  fixed_cost : Q;
  type : string
}.

Module BillOps.

Definition __init__ : Bill :=
  {| billed_min := 0; free_min := 0; min_rate := 0; fixed_cost := 0;
     type := "" |}.

Definition set_rates (contract_type : string) (min_cost : Q) (b : Bill) : Bill :=
  {| billed_min := billed_min b; free_min := free_min b;
     min_rate := min_cost; fixed_cost := fixed_cost b;
     type := contract_type |}.

Definition add_fixed_cost (cost : Q) (b : Bill) : Bill :=
  {| billed_min := billed_min b; free_min := free_min b;
     min_rate := min_rate b; fixed_cost := (fixed_cost b + cost)%Q;
     type := type b |}.

Definition add_billed_minutes (minutes : Z) (b : Bill) : Bill :=
  {| billed_min := billed_min b + minutes; free_min := free_min b;
     min_rate := min_rate b; fixed_cost := fixed_cost b;
     type := type b |}.

Definition add_free_minutes (minutes : Z) (b : Bill) : Bill :=
  {| billed_min := billed_min b; free_min := free_min b + minutes;
     min_rate := min_rate b; fixed_cost := fixed_cost b;
     type := type b |}.

Definition get_cost (b : Bill) : Q :=
  (min_rate b * inject_Z (billed_min b) + fixed_cost b)%Q.

End BillOps.

(** Modelled from the spec: the [Call] record of [call.py], of which the
    contracts read the [duration] only (seconds, an integer or a float). *)
Record Call : Type := mkCall { duration : Q }.

Module datetime.
Record date : Type := mkdate { year : Z; month : Z; day : Z }.
End datetime.

(** ** The store of bills *)

Definition loc : Type := nat.
Abbreviation store := (gmap loc Bill).

Definition M (A : Type) : Type := store -> result (A * store).

Global Instance M_ret : MRet M := fun A a σ => Ok (a, σ).

Global Instance M_bind : MBind M := fun A B k m σ =>
  match m σ with
  | Ok (a, σ') => k a σ'
  | Raise e => Raise e
  end.

Definition raise {A : Type} (e : exn) : M A := fun _ => Raise e.

Global Typeclasses Opaque M.

(** [getattr o]: read through an attribute that may hold [None] or may
    never have been assigned. *)
Definition getattr {A : Type} (o : option A) : M A :=
  match o with
  | Some a => mret a
  | None => raise AttributeError
  end.

(** The object a reference designates. *)
Definition deref (l : loc) : M Bill := fun σ =>
  match σ !! l with
  | Some b => Ok (b, σ)
  | None => Raise DanglingReference
  end.

Definition assign (l : loc) (b : Bill) : M unit := fun σ =>
  Ok (tt, <[l := b]> σ).

(** [self.bill.method(...)] for a method that updates the bill in place. *)
Definition call_bill (r : option loc) (method : Bill -> Bill) : M unit :=
  l ← getattr r;
  b ← deref l;
  assign l (method b).

(** [self.bill.method()] for a method that only reads the bill. *)
Definition read_bill {A : Type} (r : option loc) (method : Bill -> A) : M A :=
  l ← getattr r;
  b ← deref l;
  mret (method b).

(** ** Constants of [contract.py] *)

Definition MTM_MONTHLY_FEE : Q := 50.
Definition TERM_MONTHLY_FEE : Q := 20.
Definition TERM_DEPOSIT : Q := 300.
Definition TERM_MINS : Z := 100.
(** The literals [0.05], [0.1] and [0.025] are no binary fractions: each
    denotes the binary64 number nearest to it, [3602879701896397 / 2^56],
    [3602879701896397 / 2^55] and [3602879701896397 / 2^57]. *)
Definition MTM_MINS_COST : Q := 3602879701896397 # 72057594037927936.
Definition TERM_MINS_COST : Q := 3602879701896397 # 36028797018963968.
Definition PREPAID_MINS_COST : Q := 3602879701896397 # 144115188075855872.

(** [ceil(x / 60.0)] *)
Definition ceil60 (x : Q) : Z := Qceiling (x / 60).

(** ** class Contract *)

Module Contract.

Record t : Type := mk {
  start : option datetime.date;
  bill : option loc
}.

Definition set_start (v : option datetime.date) (self : t) : t :=
  {| start := v; bill := bill self |}.

Definition set_bill (v : option loc) (self : t) : t :=
  {| start := start self; bill := v |}.

Definition __init__ (start : datetime.date) : t :=
  {| start := Some start; bill := None |}.

Definition new_month (month year : Z) (bill : loc) (self : t) : M t :=
  raise NotImplementedError.

Definition bill_call (call : Call) (self : t) : M t :=
  call_bill (bill self)
    (BillOps.add_billed_minutes (ceil60 (duration call)));;
  mret self.

Definition cancel_contract (self : t) : M (Q * t) :=
  let self := set_start None self in
  cost ← read_bill (bill self) BillOps.get_cost;
  mret (cost, self).

End Contract.

(** ** class MTMContract(Contract) *)

Module MTMContract.

Definition t : Type := Contract.t.

Definition __init__ (start : datetime.date) : t := Contract.__init__ start.

Definition new_month (month year : Z) (bill : loc) (self : t) : M t :=
  let self := Contract.set_bill (Some bill) self in
  call_bill (Contract.bill self) (BillOps.add_fixed_cost MTM_MONTHLY_FEE);;
  call_bill (Contract.bill self) (BillOps.set_rates "MTM" MTM_MINS_COST);;
  mret self.

(* inherited *)
Definition bill_call : Call -> t -> M t := Contract.bill_call.
Definition cancel_contract : t -> M (Q * t) := Contract.cancel_contract.

End MTMContract.

(** ** class TermContract(Contract) *)

Module TermContract.

(** [_curr_month] and [_curr_year] are assigned by [new_month] only:
    until then the attributes do not exist ([None] here). *)
Record t : Type := mk {
  base : Contract.t;
  end_date : datetime.date;
  _free : Z;
  _curr_month : option Z;
  _curr_year : option Z
}.

Definition start (self : t) : option datetime.date :=
  Contract.start (base self).

Definition bill (self : t) : option loc := Contract.bill (base self).

Definition set_bill (v : option loc) (self : t) : t :=
  {| base := Contract.set_bill v (base self); end_date := end_date self;
     _free := _free self; _curr_month := _curr_month self;
     _curr_year := _curr_year self |}.

Definition set_free (v : Z) (self : t) : t :=
  {| base := base self; end_date := end_date self; _free := v;
     _curr_month := _curr_month self; _curr_year := _curr_year self |}.

Definition set_curr_month (v : Z) (self : t) : t :=
  {| base := base self; end_date := end_date self; _free := _free self;
     _curr_month := Some v; _curr_year := _curr_year self |}.

Definition set_curr_year (v : Z) (self : t) : t :=
  {| base := base self; end_date := end_date self; _free := _free self;
     _curr_month := _curr_month self; _curr_year := Some v |}.

Definition __init__ (start end_ : datetime.date) : t :=
  {| base := Contract.__init__ start; end_date := end_;
     _free := TERM_MINS; _curr_month := None; _curr_year := None |}.

Definition new_month (month year : Z) (bill_ : loc) (self : t) : M t :=
  let self := set_bill (Some bill_) self in
  (* Checks if the term deposit needs to be added to the fixed cost *)
  s ← getattr (start self);
  (if (month =? datetime.month s) && (year =? datetime.year s)
   then call_bill (bill self) (BillOps.add_fixed_cost TERM_DEPOSIT)
   else mret tt);;
  call_bill (bill self) (BillOps.add_fixed_cost TERM_MONTHLY_FEE);;
  call_bill (bill self) (BillOps.set_rates "TERM" TERM_MINS_COST);;
  let self := set_free TERM_MINS self in
  let self := set_curr_month month self in
  let self := set_curr_year year self in
  mret self.

Definition bill_call (call : Call) (self : t) : M t :=
  let mins := ceil60 (duration call) in
  (* checks if the duration of the call exceeds the amount
     of free minutes available and bills accordingly *)
  if mins <=? _free self then
    call_bill (bill self) (BillOps.add_free_minutes mins);;
    let self := set_free (_free self - mins) self in
    mret self
  else
    call_bill (bill self)
      (BillOps.add_free_minutes (ceil60 (inject_Z (_free self))));;
    let mins := mins - _free self in
    let self := set_free 0 self in
    call_bill (bill self) (BillOps.add_billed_minutes mins);;
    mret self.

Definition cancel_contract (self : t) : M (Q * t) :=
  (* To determine if the term deposit should be refunded *)
  cy ← getattr (_curr_year self);
  refund ← (if cy >=? datetime.year (end_date self)
            then cm ← getattr (_curr_month self);
                 mret (cm >? datetime.month (end_date self))
            else mret false);
  if refund : bool then
    cost ← read_bill (bill self) BillOps.get_cost;
    mret ((cost - TERM_DEPOSIT)%Q, self)
  else
    cost ← read_bill (bill self) BillOps.get_cost;
    mret (cost, self).

End TermContract.

(** ** class PrepaidContract(Contract) *)

Module PrepaidContract.

Record t : Type := mk {
  base : Contract.t;
  balance : Q
}.

Definition start (self : t) : option datetime.date :=
  Contract.start (base self).

Definition bill (self : t) : option loc := Contract.bill (base self).

Definition set_bill (v : option loc) (self : t) : t :=
  {| base := Contract.set_bill v (base self); balance := balance self |}.

Definition set_balance (v : Q) (self : t) : t :=
  {| base := base self; balance := v |}.

Definition __init__ (start : datetime.date) (balance : Q) : t :=
  {| base := Contract.__init__ start;
     (* Negative balance indicates credit *)
     balance := (balance * -1)%Q |}.

(** [x > y] on numbers *)
Definition Qgtb (x y : Q) : bool := negb (Qle_bool x y).

Definition new_month (month year : Z) (bill_ : loc) (self : t) : M t :=
  let self := set_bill (Some bill_) self in
  call_bill (bill self) (BillOps.set_rates "PREPAID" PREPAID_MINS_COST);;
  let self := if Qgtb (balance self) (-10)
              then set_balance (balance self - 25)%Q self
              else self in
  (* Carrying over the credit from the previous bill to this one *)
  call_bill (bill self) (BillOps.add_fixed_cost (balance self));;
  mret self.

Definition bill_call (call : Call) (self : t) : M t :=
  call_bill (bill self)
    (BillOps.add_billed_minutes (ceil60 (duration call)));;
  cost ← read_bill (bill self) BillOps.get_cost;
  mret (set_balance cost self).

Definition cancel_contract (self : t) : M (Q * t) :=
  if Qgtb (balance self) 0 then mret (balance self, self)
  else mret (0%Q, self).

End PrepaidContract.

(** ** Running a contract through billing cycles *)

(** One cycle as the driver announces it: the month, the year and the
    bill object created for it. *)
Record cycle : Type := mkCycle {
  cycle_month : Z;
  cycle_year : Z;
  cycle_bill : loc
}.

Fixpoint term_new_months (cs : list cycle) (self : TermContract.t)
  : M TermContract.t :=
  match cs with
  | [] => mret self
  | c :: cs' =>
      self' ← TermContract.new_month (cycle_month c) (cycle_year c)
                (cycle_bill c) self;
      term_new_months cs' self'
  end.

(** The fixed costs charged on all bills of the store together. *)
Definition total_fixed_cost (σ : store) : Q :=
  map_fold (fun _ b acc => (fixed_cost b + acc)%Q) 0%Q σ.

(** What the driver may do with a term contract between its creation and
    its cancellation. *)
Inductive term_op : Type :=
| NewMonth (month year : Z) (bill_ : loc)
| BillCall (call : Call).

Definition term_step (op : term_op) (self : TermContract.t)
  : M TermContract.t :=
  match op with
  | NewMonth m y b => TermContract.new_month m y b self
  | BillCall c => TermContract.bill_call c self
  end.

Fixpoint term_run (ops : list term_op) (self : TermContract.t)
  : M TermContract.t :=
  match ops with
  | [] => mret self
  | op :: ops' => self' ← term_step op self; term_run ops' self'
  end.

(** The same for a prepaid contract. *)
Inductive prepaid_op : Type :=
| PNewMonth (month year : Z) (bill_ : loc)
| PBillCall (call : Call).

Definition prepaid_step (op : prepaid_op) (self : PrepaidContract.t)
  : M PrepaidContract.t :=
  match op with
  | PNewMonth m y b => PrepaidContract.new_month m y b self
  | PBillCall c => PrepaidContract.bill_call c self
  end.

Fixpoint prepaid_run (ops : list prepaid_op) (self : PrepaidContract.t)
  : M PrepaidContract.t :=
  match ops with
  | [] => mret self
  | op :: ops' => self' ← prepaid_step op self; prepaid_run ops' self'
  end.

(** The calls the driver bills have a non-negative duration. *)
Definition nonneg_call (op : term_op) : Prop :=
  match op with
  | NewMonth _ _ _ => True
  | BillCall c => (0 <= duration c)%Q
  end.

(** The month and year of a cycle, and the test [new_month] makes on
    them. *)
Definition cycle_key (c : cycle) : Z * Z := (cycle_month c, cycle_year c).

Definition date_key (d : datetime.date) : Z * Z :=
  (datetime.month d, datetime.year d).

(** The bill a term contract's [new_month] leaves, and the contract. *)
Definition term_month_bill (month year : Z) (s : datetime.date) (b : Bill)
  : Bill :=
  BillOps.set_rates "TERM" TERM_MINS_COST
    (BillOps.add_fixed_cost TERM_MONTHLY_FEE
       (if (month =? datetime.month s) && (year =? datetime.year s)
        then BillOps.add_fixed_cost TERM_DEPOSIT b else b)).

Definition term_month_self (month year : Z) (l : loc) (self : TermContract.t)
  : TermContract.t :=
  TermContract.set_curr_year year
    (TermContract.set_curr_month month
       (TermContract.set_free TERM_MINS
          (TermContract.set_bill (Some l) self))).

(** The cycles of a list on which [new_month] finds the start month and
    year of the contract. *)
Definition in_start_cycle (s : datetime.date) (c : cycle) : bool :=
  (cycle_month c =? datetime.month s) && (cycle_year c =? datetime.year s).

Definition start_cycles (s : datetime.date) (cs : list cycle) : nat :=
  length (List.filter (in_start_cycle s) cs).

(** ** Calls of one cycle *)

(** The minutes of a list of calls, each call rounded up on its own. *)
Definition total_minutes (calls : list Call) : Z :=
  fold_right (fun c acc => ceil60 (duration c) + acc) 0 calls.

(** The driver billing the calls of a cycle, one after the other, on a
    contract that keeps the default [bill_call]. *)
Fixpoint default_bill_calls (calls : list Call) (self : Contract.t)
  : M Contract.t :=
  match calls with
  | [] => mret self
  | c :: calls' =>
      self' ← Contract.bill_call c self; default_bill_calls calls' self'
  end.

(** One cycle of a month-to-month contract. *)
Definition mtm_cycle (month year : Z) (bill_ : loc) (calls : list Call)
  (self : MTMContract.t) : M MTMContract.t :=
  self' ← MTMContract.new_month month year bill_ self;
  default_bill_calls calls self'.

(** One cycle of a term contract and of a prepaid contract. *)
Definition term_cycle (month year : Z) (bill_ : loc) (calls : list Call)
  (self : TermContract.t) : M TermContract.t :=
  term_run (NewMonth month year bill_ :: map BillCall calls) self.

Definition prepaid_cycle (month year : Z) (bill_ : loc) (calls : list Call)
  (self : PrepaidContract.t) : M PrepaidContract.t :=
  prepaid_run (PNewMonth month year bill_ :: map PBillCall calls) self.

(** Calls of non-negative duration. *)
Definition nonneg_calls (calls : list Call) : Prop :=
  Forall (fun c => (0 <= duration c)%Q) calls.

(** The seconds of a list of calls. *)
Definition total_duration (calls : list Call) : Q :=
  fold_right (fun c acc => (duration c + acc)%Q) 0%Q calls.

(** The balance a prepaid contract's [new_month] carries to the bill. *)
Definition prepaid_carried (balance : Q) : Q :=
  if PrepaidContract.Qgtb balance (-10) then (balance - 25)%Q else balance.

(** ** Sample data *)

Definition jan_15_2023 : datetime.date := datetime.mkdate 2023 1 15.
Definition jun_25_2023 : datetime.date := datetime.mkdate 2023 6 25.

(** A store with one new bill, at reference 0. *)
Definition one_bill : store := {[ 0%nat := BillOps.__init__ ]}.

(** A term contract from January to June 2023. *)
Definition sample_term : TermContract.t :=
  TermContract.__init__ jan_15_2023 jun_25_2023.

(** A prepaid contract opened with 40 of credit. *)
Definition sample_prepaid : PrepaidContract.t :=
  PrepaidContract.__init__ jan_15_2023 40.

(** * Properties *)

(** ** How the monad runs *)

Lemma bind_Ok {A B : Type} (m : M A) (k : A -> M B) (σ σ' : store) (a : A) :
  m σ = Ok (a, σ') -> (m ≫= k) σ = k a σ'.
Proof. intros H. unfold mbind, M_bind. now rewrite H. Qed.

Lemma bind_inv {A B : Type} (m : M A) (k : A -> M B) (σ σ'' : store) (b : B) :
  (m ≫= k) σ = Ok (b, σ'') ->
  exists a σ', m σ = Ok (a, σ') /\ k a σ' = Ok (b, σ'').
Proof.
  unfold mbind, M_bind. destruct (m σ) as [[a σ']|e]; [|discriminate].
  intros H. now exists a, σ'.
Qed.

Lemma call_bill_Ok (l : loc) (method : Bill -> Bill) (σ : store) (b : Bill) :
  σ !! l = Some b ->
  call_bill (Some l) method σ = Ok (tt, <[l := method b]> σ).
Proof.
  intros H. unfold call_bill, getattr, deref, assign, mbind, M_bind, mret, M_ret.
  now rewrite H.
Qed.

Lemma read_bill_Ok {A : Type} (l : loc) (method : Bill -> A) (σ : store) (b : Bill) :
  σ !! l = Some b ->
  read_bill (Some l) method σ = Ok (method b, σ).
Proof.
  intros H. unfold read_bill, getattr, deref, mbind, M_bind, mret, M_ret.
  now rewrite H.
Qed.

Lemma read_bill_inv {A : Type} (r : option loc) (method : Bill -> A) (σ σ' : store) (a : A) :
  read_bill r method σ = Ok (a, σ') -> σ' = σ.
Proof.
  unfold read_bill, getattr, deref, raise, mbind, M_bind, mret, M_ret.
  destruct r as [l|]; [|discriminate].
  destruct (σ !! l) as [b|]; [|discriminate].
  now intros [= _ <-].
Qed.

(** ** Rounding up to whole minutes *)

Lemma ceil60_upper (x : Q) : (x <= 60 * inject_Z (ceil60 x))%Q.
Proof.
  unfold ceil60. pose proof (Qle_ceiling (x / 60)) as H.
  assert (E : (x == 60 * (x / 60))%Q) by (field; discriminate).
  rewrite E at 1. apply Qmult_le_l; [reflexivity | exact H].
Qed.

Lemma ceil60_lower (x : Q) : (60 * inject_Z (ceil60 x - 1) < x)%Q.
Proof.
  unfold ceil60. pose proof (Qceiling_lt (x / 60)) as H.
  assert (E : (x == 60 * (x / 60))%Q) by (field; discriminate).
  rewrite E at 2. apply Qmult_lt_l; [reflexivity | exact H].
Qed.

Lemma ceil60_nonneg (x : Q) : (0 <= x)%Q -> 0 <= ceil60 x.
Proof.
  intros Hx. pose proof (ceil60_upper x) as H.
  destruct (Z_lt_le_dec (ceil60 x) 0) as [Hneg|]; [|assumption].
  exfalso. assert (Hz : (inject_Z (ceil60 x) <= inject_Z (-1))%Q).
  { rewrite <- Zle_Qle. lia. }
  change (inject_Z (-1)) with (-1)%Q in Hz. lra.
Qed.

(** [ceil60 x] is the only integer [m] with [60 * (m - 1) < x <= 60 * m]. *)
Lemma ceil60_unique (x : Q) (m : Z) :
  (60 * inject_Z (m - 1) < x)%Q -> (x <= 60 * inject_Z m)%Q -> ceil60 x = m.
Proof.
  intros Hlo Hhi.
  pose proof (ceil60_lower x) as Hlo'. pose proof (ceil60_upper x) as Hhi'.
  assert (H1 : (inject_Z (m - 1) < inject_Z (ceil60 x))%Q) by lra.
  assert (H2 : (inject_Z (ceil60 x - 1) < inject_Z m)%Q) by lra.
  rewrite <- Zlt_Qlt in H1, H2. lia.
Qed.

(** ** The default [bill_call] and [cancel_contract] *)

(** C5. With a bill bound, the default [bill_call] (class [Contract],
    inherited unchanged by [MTMContract]) adds [m = ceil(duration / 60)]
    billed minutes to the bound bill and nothing else: the free minutes of
    that bill and every other bill stay as they are.  [m] is the one
    whole number with [60 * (m - 1) < duration <= 60 * m], it is not
    negative for a call of non-negative duration, and a call of one second
    bills one minute. *)
Theorem default_bill_call_bills_ceiling
  (call : Call) (self : Contract.t) (σ : store) (l : loc) (b : Bill) :
  Contract.bill self = Some l ->
  σ !! l = Some b ->
  (0 <= duration call)%Q ->
  let m := Qceiling (duration call / 60) in
  let b' := BillOps.add_billed_minutes m b in
  Contract.bill_call call self σ = Ok (self, <[l := b']> σ)
  /\ MTMContract.bill_call call self σ = Ok (self, <[l := b']> σ)
  /\ billed_min b' = billed_min b + m
  /\ free_min b' = free_min b
  /\ fixed_cost b' = fixed_cost b
  /\ (60 * inject_Z (m - 1) < duration call)%Q
  /\ (duration call <= 60 * inject_Z m)%Q
  /\ (forall k : Z,
        (60 * inject_Z (k - 1) < duration call)%Q ->
        (duration call <= 60 * inject_Z k)%Q -> k = m)
  /\ 0 <= m
  /\ ((duration call == 1)%Q -> m = 1).
Proof.
  intros Hbill Hl Hd m b'.
  assert (Hrun : Contract.bill_call call self σ = Ok (self, <[l := b']> σ)).
  { unfold Contract.bill_call. rewrite Hbill.
    erewrite bind_Ok by (apply call_bill_Ok; exact Hl). reflexivity. }
  repeat split; try assumption; try reflexivity.
  - apply (ceil60_lower (duration call)).
  - apply (ceil60_upper (duration call)).
  - intros k Hlo Hhi. symmetry. exact (ceil60_unique _ _ Hlo Hhi).
  - apply (ceil60_nonneg (duration call)); assumption.
  - intros E. subst m. rewrite E. reflexivity.
Qed.

Lemma default_bill_call_bills_ceiling_witness :
  Contract.bill_call (mkCall 1) (Contract.mk (Some jan_15_2023) (Some 0%nat))
    one_bill
  = Ok (Contract.mk (Some jan_15_2023) (Some 0%nat),
        <[0%nat := BillOps.add_billed_minutes 1 BillOps.__init__]> one_bill).
Proof.
  refine (proj1 (default_bill_call_bills_ceiling (mkCall 1)
            (Contract.mk (Some jan_15_2023) (Some 0%nat)) one_bill 0%nat
            BillOps.__init__ _ _ _)).
  - reflexivity.
  - reflexivity.
  - simpl. unfold Qle. simpl. lia.
Defined.

(** C9. With a bill bound, the default [cancel_contract] (class
    [Contract], inherited unchanged by [MTMContract]) sets [start] to
    [None] and returns the cost of the bound bill as it stands: nothing is
    added to or taken from it, and no bill is changed. *)
Theorem default_cancel_contract_clears_start
  (self : Contract.t) (σ : store) (l : loc) (b : Bill) :
  Contract.bill self = Some l ->
  σ !! l = Some b ->
  let self' := Contract.set_start None self in
  Contract.cancel_contract self σ = Ok ((BillOps.get_cost b, self'), σ)
  /\ MTMContract.cancel_contract self σ = Ok ((BillOps.get_cost b, self'), σ)
  /\ Contract.start self' = None
  /\ Contract.bill self' = Contract.bill self.
Proof.
  intros Hbill Hl self'.
  assert (Hrun : Contract.cancel_contract self σ
                 = Ok ((BillOps.get_cost b, self'), σ)).
  { unfold Contract.cancel_contract. simpl. rewrite Hbill.
    erewrite bind_Ok by (apply read_bill_Ok; exact Hl). reflexivity. }
  repeat split; assumption.
Qed.

Lemma default_cancel_contract_clears_start_witness :
  Contract.cancel_contract (Contract.mk (Some jan_15_2023) (Some 0%nat))
    one_bill
  = Ok ((BillOps.get_cost BillOps.__init__,
         Contract.mk None (Some 0%nat)), one_bill).
Proof.
  refine (proj1 (default_cancel_contract_clears_start
            (Contract.mk (Some jan_15_2023) (Some 0%nat)) one_bill 0%nat
            BillOps.__init__ _ _)); reflexivity.
Defined.

(** ** Term contracts: billing a call *)

(** What [TermContract.bill_call] does once a bill is bound, branch by
    branch. *)
Lemma term_bill_call_run
  (call : Call) (self : TermContract.t) (σ : store) (l : loc) (b : Bill) :
  TermContract.bill self = Some l ->
  σ !! l = Some b ->
  let mins := ceil60 (duration call) in
  let free := TermContract._free self in
  TermContract.bill_call call self σ
  = if mins <=? free
    then Ok (TermContract.set_free (free - mins) self,
             <[l := BillOps.add_free_minutes mins b]> σ)
    else Ok (TermContract.set_free 0 self,
             <[l := BillOps.add_billed_minutes (mins - free)
                      (BillOps.add_free_minutes (ceil60 (inject_Z free)) b)]> σ).
Proof.
  intros Hbill Hl mins free. unfold TermContract.bill_call.
  fold mins. fold free. destruct (mins <=? free).
  - rewrite Hbill. erewrite bind_Ok by (apply call_bill_Ok; exact Hl).
    reflexivity.
  - rewrite Hbill. erewrite bind_Ok by (apply call_bill_Ok; exact Hl).
    change (TermContract.bill (TermContract.set_free 0 self))
      with (TermContract.bill self).
    rewrite Hbill.
    erewrite bind_Ok by (apply call_bill_Ok; apply lookup_insert_eq).
    rewrite insert_insert_eq. reflexivity.
Qed.

(** The free-minute counter after a call, whatever the bill. *)
Lemma term_bill_call_free
  (call : Call) (self self' : TermContract.t) (σ σ' : store) :
  TermContract.bill_call call self σ = Ok (self', σ') ->
  TermContract._free self'
  = if ceil60 (duration call) <=? TermContract._free self
    then TermContract._free self - ceil60 (duration call)
    else 0.
Proof.
  unfold TermContract.bill_call.
  destruct (ceil60 (duration call) <=? TermContract._free self).
  - intros H. apply bind_inv in H as (u & σ1 & _ & H).
    injection H as <- _. reflexivity.
  - intros H. apply bind_inv in H as (u & σ1 & _ & H).
    apply bind_inv in H as (u' & σ2 & _ & H).
    injection H as <- _. reflexivity.
Qed.

(** C1. A term contract in its first cycle has 100 free minutes left; a
    call of 6060 seconds (101 minutes) then puts 2 free minutes, not 100,
    on the bill, next to the one billed minute, and leaves no free minute
    in the counter. *)
Theorem term_bill_call_101_minutes_logs_2_free :
  exists (self self' : TermContract.t) (σ σ' : store) (b : Bill),
    TermContract.new_month 1 2023 0%nat sample_term one_bill = Ok (self, σ)
    /\ TermContract._free self = 100
    /\ TermContract.bill_call (mkCall 6060) self σ = Ok (self', σ')
    /\ σ' !! 0%nat = Some b
    /\ free_min b = 2
    /\ free_min b <> 100
    /\ billed_min b = 1
    /\ TermContract._free self' = 0.
Proof.
  eexists _, _, _, _, _. split; [vm_compute; reflexivity|].
  split; [reflexivity|].
  split; [vm_compute; reflexivity|].
  split; [vm_compute; reflexivity|].
  repeat split; try reflexivity. discriminate.
Qed.

(** ** Term contracts: cancelling *)

Lemma term_cancel_contract_run
  (self : TermContract.t) (σ : store) (l : loc) (b : Bill) (cm cy : Z) :
  TermContract._curr_month self = Some cm ->
  TermContract._curr_year self = Some cy ->
  TermContract.bill self = Some l ->
  σ !! l = Some b ->
  let ends := TermContract.end_date self in
  TermContract.cancel_contract self σ
  = Ok ((if (cy >=? datetime.year ends) && (cm >? datetime.month ends)
         then (BillOps.get_cost b - TERM_DEPOSIT)%Q
         else BillOps.get_cost b, self), σ).
Proof.
  intros Hcm Hcy Hbill Hl ends.
  unfold TermContract.cancel_contract. rewrite Hcm, Hcy, Hbill. fold ends.
  assert (Hread : read_bill (Some l) BillOps.get_cost σ
                  = Ok (BillOps.get_cost b, σ))
    by (apply read_bill_Ok; exact Hl).
  unfold getattr, mbind, M_bind, mret, M_ret; cbv beta iota.
  destruct (cy >=? datetime.year ends); [destruct (cm >? datetime.month ends)|].
  all: cbv beta iota; rewrite Hread; reflexivity.
Qed.

(** C2. Once a cycle is recorded and a bill bound, cancelling a term
    contract returns the bill's cost less the deposit when the recorded
    year is not before the end date's year and the recorded month is after
    the end date's month, and the bill's cost otherwise; the amount is the
    cost less the deposit in that case only.  In the end date's month the
    full cost is due. *)
Theorem term_cancel_contract_refund_iff
  (self : TermContract.t) (σ : store) (l : loc) (b : Bill) (cm cy : Z) :
  TermContract._curr_month self = Some cm ->
  TermContract._curr_year self = Some cy ->
  TermContract.bill self = Some l ->
  σ !! l = Some b ->
  let cost := BillOps.get_cost b in
  let ends := TermContract.end_date self in
  let fulfilled := datetime.year ends <= cy /\ datetime.month ends < cm in
  exists owed : Q,
    TermContract.cancel_contract self σ = Ok ((owed, self), σ)
    /\ (fulfilled -> owed = (cost - 300)%Q)
    /\ (~ fulfilled -> owed = cost)
    /\ ((owed == cost - 300)%Q <-> fulfilled)
    /\ (cm = datetime.month ends -> owed = cost).
Proof.
  intros Hcm Hcy Hbill Hl cost ends fulfilled.
  rewrite (term_cancel_contract_run self σ l b cm cy Hcm Hcy Hbill Hl).
  fold ends. fold cost. unfold fulfilled, TERM_DEPOSIT. eexists. split; [reflexivity|].
  destruct (Z.geb_spec cy (datetime.year ends)) as [Hy|Hy];
    [destruct (Z.gtb_spec cm (datetime.month ends)) as [Hm|Hm]|]; cbn [andb].
  all: repeat split; intros; first [reflexivity | lia | exfalso; lra].
Qed.

Lemma term_cancel_contract_refund_iff_witness :
  let self := TermContract.mk (Contract.mk (Some jan_15_2023) (Some 0%nat))
                jun_25_2023 100 (Some 7) (Some 2023) in
  exists owed : Q,
    TermContract.cancel_contract self one_bill = Ok ((owed, self), one_bill)
    /\ owed = (BillOps.get_cost BillOps.__init__ - 300)%Q.
Proof.
  intros self.
  destruct (term_cancel_contract_refund_iff self one_bill 0%nat
              BillOps.__init__ 7 2023 eq_refl eq_refl eq_refl eq_refl)
    as (owed & Hrun & Hyes & _).
  exists owed. split; [exact Hrun|]. apply Hyes. simpl. lia.
Defined.

(** ** Term contracts: a new month *)

Lemma term_new_month_run
  (month year : Z) (l : loc) (self : TermContract.t) (σ : store) :
  TermContract.new_month month year l self σ
  = match TermContract.start self, σ !! l with
    | Some s, Some b =>
        let b1 := if (month =? datetime.month s) && (year =? datetime.year s)
                  then BillOps.add_fixed_cost TERM_DEPOSIT b else b in
        Ok (TermContract.set_curr_year year
              (TermContract.set_curr_month month
                 (TermContract.set_free TERM_MINS
                    (TermContract.set_bill (Some l) self))),
            <[l := BillOps.set_rates "TERM" TERM_MINS_COST
                     (BillOps.add_fixed_cost TERM_MONTHLY_FEE b1)]> σ)
    | Some s, None => Raise DanglingReference
    | None, _ => Raise AttributeError
    end.
Proof.
  unfold TermContract.new_month.
  change (TermContract.start (TermContract.set_bill (Some l) self))
    with (TermContract.start self).
  change (TermContract.bill (TermContract.set_bill (Some l) self))
    with (Some l).
  destruct (TermContract.start self) as [s|]; [|reflexivity].
  destruct (σ !! l) as [b|] eqn:Hl.
  - rewrite (bind_Ok _ _ σ σ s) by reflexivity.
    destruct ((month =? datetime.month s) && (year =? datetime.year s)).
    + erewrite bind_Ok by (apply call_bill_Ok; exact Hl).
      erewrite bind_Ok by (apply call_bill_Ok; apply lookup_insert_eq).
      erewrite bind_Ok by (apply call_bill_Ok; apply lookup_insert_eq).
      rewrite !insert_insert_eq. reflexivity.
    + rewrite (bind_Ok _ _ σ σ tt) by reflexivity.
      erewrite bind_Ok by (apply call_bill_Ok; exact Hl).
      erewrite bind_Ok by (apply call_bill_Ok; apply lookup_insert_eq).
      rewrite !insert_insert_eq. reflexivity.
  - rewrite (bind_Ok _ _ σ σ s) by reflexivity.
    unfold call_bill, getattr, deref, mbind, M_bind, mret, M_ret.
    destruct ((month =? datetime.month s) && (year =? datetime.year s));
      cbv beta iota; rewrite Hl; reflexivity.
Qed.

Lemma term_new_month_Ok
  (month year : Z) (l : loc) (self : TermContract.t) (σ : store)
  (s : datetime.date) (b : Bill) :
  TermContract.start self = Some s ->
  σ !! l = Some b ->
  TermContract.new_month month year l self σ
  = Ok (term_month_self month year l self,
        <[l := term_month_bill month year s b]> σ).
Proof.
  intros Hstart Hl. rewrite term_new_month_run, Hstart, Hl. reflexivity.
Qed.

Lemma term_new_month_inv
  (month year : Z) (l : loc) (self self' : TermContract.t) (σ σ' : store) :
  TermContract.new_month month year l self σ = Ok (self', σ') ->
  self' = TermContract.set_curr_year year
            (TermContract.set_curr_month month
               (TermContract.set_free TERM_MINS
                  (TermContract.set_bill (Some l) self))).
Proof.
  rewrite term_new_month_run.
  destruct (TermContract.start self); [|discriminate].
  destruct (σ !! l); [|discriminate].
  intros [= <- _]. reflexivity.
Qed.

(** ** Term contracts: the free-minute counter *)

Lemma term_bill_call_free_bounds
  (call : Call) (self self' : TermContract.t) (σ σ' : store) :
  0 <= TermContract._free self ->
  (0 <= duration call)%Q ->
  TermContract.bill_call call self σ = Ok (self', σ') ->
  0 <= TermContract._free self' <= TermContract._free self.
Proof.
  intros Hfree Hd Hrun. rewrite (term_bill_call_free _ _ _ _ _ Hrun).
  pose proof (ceil60_nonneg _ Hd) as Hm.
  destruct (Z.leb_spec (ceil60 (duration call)) (TermContract._free self)); lia.
Qed.

Lemma term_step_free_bounds
  (op : term_op) (self self' : TermContract.t) (σ σ' : store) :
  nonneg_call op ->
  0 <= TermContract._free self <= TERM_MINS ->
  term_step op self σ = Ok (self', σ') ->
  0 <= TermContract._free self' <= TERM_MINS.
Proof.
  intros Hop Hfree Hrun. destruct op as [m y l|call]; simpl in *.
  - rewrite (term_new_month_inv _ _ _ _ _ _ _ Hrun). simpl.
    unfold TERM_MINS. lia.
  - pose proof (term_bill_call_free_bounds call self self' σ σ'
                  (proj1 Hfree) Hop Hrun). lia.
Qed.

Lemma term_run_free_bounds
  (ops : list term_op) (self self' : TermContract.t) (σ σ' : store) :
  Forall nonneg_call ops ->
  0 <= TermContract._free self <= TERM_MINS ->
  term_run ops self σ = Ok (self', σ') ->
  0 <= TermContract._free self' <= TERM_MINS.
Proof.
  intros Hops. revert self σ.
  induction Hops as [|op ops Hop Hops IH]; intros self σ Hfree Hrun.
  - injection Hrun as <- _. exact Hfree.
  - simpl in Hrun. apply bind_inv in Hrun as (self1 & σ1 & Hstep & Hrun).
    apply (IH self1 σ1); [|exact Hrun].
    exact (term_step_free_bounds op self self1 σ σ1 Hop Hfree Hstep).
Qed.

(** C8. The free-minute counter of a term contract.  A new contract has
    100 free minutes and every [new_month] sets the counter to 100.
    After any operations of the driver on a new contract, the billed calls
    being of non-negative duration, the counter is between 0 and 100, and
    a further such call leaves a counter that is neither negative nor
    above the one before the call. *)
Theorem term_free_minutes_invariant :
  (forall s e : datetime.date,
      TermContract._free (TermContract.__init__ s e) = 100)
  /\ (forall (m y : Z) (l : loc) (self self' : TermContract.t) (σ σ' : store),
         TermContract.new_month m y l self σ = Ok (self', σ') ->
         TermContract._free self' = 100)
  /\ (forall (ops : list term_op) (s e : datetime.date)
             (self : TermContract.t) (σ σ1 : store),
         Forall nonneg_call ops ->
         term_run ops (TermContract.__init__ s e) σ = Ok (self, σ1) ->
         0 <= TermContract._free self <= 100
         /\ forall (call : Call) (self' : TermContract.t) (σ' : store),
              (0 <= duration call)%Q ->
              TermContract.bill_call call self σ1 = Ok (self', σ') ->
              0 <= TermContract._free self' <= TermContract._free self).
Proof.
  split; [reflexivity|]. split.
  - intros m y l self self' σ σ' Hrun.
    rewrite (term_new_month_inv _ _ _ _ _ _ _ Hrun). reflexivity.
  - intros ops s e self σ σ1 Hops Hrun.
    assert (Hfree : 0 <= TermContract._free self <= TERM_MINS).
    { apply (term_run_free_bounds ops (TermContract.__init__ s e) self σ σ1);
        [exact Hops | simpl; unfold TERM_MINS; lia | exact Hrun]. }
    split; [exact Hfree|].
    intros call self' σ' Hd Hcall.
    exact (term_bill_call_free_bounds call self self' σ1 σ'
             (proj1 Hfree) Hd Hcall).
Qed.

Lemma term_free_minutes_invariant_witness :
  exists (self : TermContract.t) (σ1 : store),
    term_run [NewMonth 1 2023 0%nat; BillCall (mkCall 6060);
              BillCall (mkCall 30)] sample_term one_bill = Ok (self, σ1)
    /\ 0 <= TermContract._free self <= 100.
Proof.
  eexists _, _. split; [vm_compute; reflexivity|].
  refine (proj1 (proj2 (proj2 term_free_minutes_invariant)
            [NewMonth 1 2023 0%nat; BillCall (mkCall 6060);
             BillCall (mkCall 30)]
            jan_15_2023 jun_25_2023 _ one_bill _ _ _)).
  - repeat constructor; simpl; unfold Qle; simpl; lia.
  - vm_compute. reflexivity.
Defined.

(** ** Prepaid contracts *)

Lemma Qgtb_true (x y : Q) : PrepaidContract.Qgtb x y = true <-> (y < x)%Q.
Proof.
  unfold PrepaidContract.Qgtb. rewrite negb_true_iff.
  split.
  - intros H. apply Qnot_le_lt. intros Hle.
    apply Qle_bool_iff in Hle. congruence.
  - intros H. destruct (Qle_bool x y) eqn:E; [|reflexivity].
    apply Qle_bool_iff in E. lra.
Qed.

Lemma Qgtb_false (x y : Q) : PrepaidContract.Qgtb x y = false <-> (x <= y)%Q.
Proof.
  unfold PrepaidContract.Qgtb. rewrite negb_false_iff. apply Qle_bool_iff.
Qed.

Lemma prepaid_new_month_run
  (month year : Z) (l : loc) (self : PrepaidContract.t) (σ : store) (b : Bill) :
  σ !! l = Some b ->
  let balance' := if PrepaidContract.Qgtb (PrepaidContract.balance self) (-10)
                  then (PrepaidContract.balance self - 25)%Q
                  else PrepaidContract.balance self in
  PrepaidContract.new_month month year l self σ
  = Ok (PrepaidContract.set_balance balance'
          (PrepaidContract.set_bill (Some l) self),
        <[l := BillOps.add_fixed_cost balance'
                 (BillOps.set_rates "PREPAID" PREPAID_MINS_COST b)]> σ).
Proof.
  intros Hl balance'. unfold PrepaidContract.new_month.
  change (PrepaidContract.bill (PrepaidContract.set_bill (Some l) self))
    with (Some l).
  erewrite bind_Ok by (apply call_bill_Ok; exact Hl).
  change (PrepaidContract.balance (PrepaidContract.set_bill (Some l) self))
    with (PrepaidContract.balance self).
  subst balance'.
  destruct (PrepaidContract.Qgtb (PrepaidContract.balance self) (-10)).
  - change (PrepaidContract.bill (PrepaidContract.set_balance _ _))
      with (Some l).
    erewrite bind_Ok by (apply call_bill_Ok; apply lookup_insert_eq).
    rewrite insert_insert_eq. reflexivity.
  - change (PrepaidContract.bill (PrepaidContract.set_bill (Some l) self))
      with (Some l).
    erewrite bind_Ok by (apply call_bill_Ok; apply lookup_insert_eq).
    rewrite insert_insert_eq. destruct self as [[s bl] bal]. reflexivity.
Qed.

(** C3. With the bill at hand, a prepaid contract's [new_month] takes 25
    off a balance above -10 and leaves a balance of -10 or less as it is;
    the balance that results is added to the fixed cost of the new bill,
    which the contract now holds. *)
Theorem prepaid_new_month_refill
  (month year : Z) (l : loc) (self : PrepaidContract.t) (σ : store) (b : Bill) :
  σ !! l = Some b ->
  exists (self' : PrepaidContract.t) (b' : Bill),
    PrepaidContract.new_month month year l self σ = Ok (self', <[l := b']> σ)
    /\ ((-10 < PrepaidContract.balance self)%Q ->
        PrepaidContract.balance self' = (PrepaidContract.balance self - 25)%Q)
    /\ ((PrepaidContract.balance self <= -10)%Q ->
        PrepaidContract.balance self' = PrepaidContract.balance self)
    /\ fixed_cost b' = (fixed_cost b + PrepaidContract.balance self')%Q
    /\ PrepaidContract.bill self' = Some l.
Proof.
  intros Hl. rewrite (prepaid_new_month_run month year l self σ b Hl).
  eexists _, _. split; [reflexivity|]. simpl.
  destruct (PrepaidContract.Qgtb (PrepaidContract.balance self) (-10)) eqn:E.
  - apply Qgtb_true in E.
    repeat split; intros; first [reflexivity | exfalso; lra].
  - apply Qgtb_false in E.
    repeat split; intros; first [reflexivity | exfalso; lra].
Qed.

Lemma prepaid_new_month_refill_witness :
  exists (self' : PrepaidContract.t) (b' : Bill),
    PrepaidContract.new_month 1 2023 0%nat sample_prepaid one_bill
    = Ok (self', <[0%nat := b']> one_bill)
    /\ PrepaidContract.balance self' = PrepaidContract.balance sample_prepaid
    /\ fixed_cost b' = (0 + PrepaidContract.balance self')%Q.
Proof.
  destruct (prepaid_new_month_refill 1 2023 0%nat sample_prepaid one_bill
              BillOps.__init__ eq_refl)
    as (self' & b' & Hrun & _ & Hkeep & Hfixed & _).
  exists self', b'. split; [exact Hrun|]. split; [|exact Hfixed].
  apply Hkeep. simpl. unfold Qle. simpl. lia.
Defined.

Lemma prepaid_cancel_contract_run (self : PrepaidContract.t) (σ : store) :
  PrepaidContract.cancel_contract self σ
  = Ok ((if PrepaidContract.Qgtb (PrepaidContract.balance self) 0
         then PrepaidContract.balance self else 0%Q, self), σ).
Proof.
  unfold PrepaidContract.cancel_contract.
  destruct (PrepaidContract.Qgtb _ _); reflexivity.
Qed.

(** C4. Cancelling a prepaid contract always returns: the balance when
    it is above zero, and zero otherwise; the amount returned is never
    negative. *)
Theorem prepaid_cancel_contract_owed
  (self : PrepaidContract.t) (σ : store) :
  exists owed : Q,
    PrepaidContract.cancel_contract self σ = Ok ((owed, self), σ)
    /\ ((0 < PrepaidContract.balance self)%Q ->
        owed = PrepaidContract.balance self)
    /\ ((PrepaidContract.balance self <= 0)%Q -> owed = 0%Q)
    /\ (0 <= owed)%Q.
Proof.
  rewrite prepaid_cancel_contract_run. eexists. split; [reflexivity|].
  destruct (PrepaidContract.Qgtb (PrepaidContract.balance self) 0) eqn:E;
    [apply Qgtb_true in E | apply Qgtb_false in E];
    repeat split; intros; first [reflexivity | lra].
Qed.

Lemma prepaid_cancel_contract_owed_witness :
  PrepaidContract.cancel_contract sample_prepaid one_bill
  = Ok ((0%Q, sample_prepaid), one_bill).
Proof.
  destruct (prepaid_cancel_contract_owed sample_prepaid one_bill)
    as (owed & Hrun & _ & Hzero & _).
  rewrite Hrun, Hzero; [reflexivity|].
  simpl. unfold Qle. simpl. lia.
Defined.

(** C7. The constructor of a prepaid contract stores the opposite of the
    balance it is given: -40 gives 40, and a positive amount gives a
    negative balance. *)
Theorem prepaid_init_negates_balance (start : datetime.date) (b : Q) :
  (PrepaidContract.balance (PrepaidContract.__init__ start b) == - b)%Q
  /\ PrepaidContract.balance (PrepaidContract.__init__ start (-40)) = 40%Q
  /\ ((0 < b)%Q ->
      (PrepaidContract.balance (PrepaidContract.__init__ start b) < 0)%Q).
Proof.
  simpl. repeat split; intros; first [reflexivity | lra].
Qed.

Lemma prepaid_init_negates_balance_witness :
  (PrepaidContract.balance (PrepaidContract.__init__ jan_15_2023 40) < 0)%Q.
Proof.
  apply (prepaid_init_negates_balance jan_15_2023 40).
  unfold Qlt. simpl. lia.
Defined.

(** ** What cancelling leaves in place *)

Lemma term_step_start
  (op : term_op) (self self' : TermContract.t) (σ σ' : store) :
  term_step op self σ = Ok (self', σ') ->
  TermContract.start self' = TermContract.start self.
Proof.
  destruct op as [m y l|call]; simpl; intros Hrun.
  - rewrite (term_new_month_inv _ _ _ _ _ _ _ Hrun). reflexivity.
  - unfold TermContract.bill_call in Hrun.
    destruct (ceil60 (duration call) <=? TermContract._free self).
    + apply bind_inv in Hrun as (u & σ1 & _ & H). injection H as <- _.
      reflexivity.
    + apply bind_inv in Hrun as (u & σ1 & _ & H).
      apply bind_inv in H as (u' & σ2 & _ & H). injection H as <- _.
      reflexivity.
Qed.

Lemma term_run_start
  (ops : list term_op) (self self' : TermContract.t) (σ σ' : store) :
  term_run ops self σ = Ok (self', σ') ->
  TermContract.start self' = TermContract.start self.
Proof.
  revert self σ. induction ops as [|op ops IH]; intros self σ Hrun.
  - injection Hrun as <- _. reflexivity.
  - simpl in Hrun. apply bind_inv in Hrun as (self1 & σ1 & Hstep & Hrun).
    rewrite (IH _ _ Hrun). exact (term_step_start _ _ _ _ _ Hstep).
Qed.

Lemma prepaid_step_start
  (op : prepaid_op) (self self' : PrepaidContract.t) (σ σ' : store) :
  prepaid_step op self σ = Ok (self', σ') ->
  PrepaidContract.start self' = PrepaidContract.start self.
Proof.
  destruct op as [m y l|call]; simpl; intros Hrun.
  - unfold PrepaidContract.new_month in Hrun.
    apply bind_inv in Hrun as (u & σ1 & _ & H).
    apply bind_inv in H as (u' & σ2 & _ & H). injection H as <- _.
    destruct (PrepaidContract.Qgtb _ _); reflexivity.
  - unfold PrepaidContract.bill_call in Hrun.
    apply bind_inv in Hrun as (u & σ1 & _ & H).
    apply bind_inv in H as (cost & σ2 & _ & H). injection H as <- _.
    reflexivity.
Qed.

Lemma prepaid_run_start
  (ops : list prepaid_op) (self self' : PrepaidContract.t) (σ σ' : store) :
  prepaid_run ops self σ = Ok (self', σ') ->
  PrepaidContract.start self' = PrepaidContract.start self.
Proof.
  revert self σ. induction ops as [|op ops IH]; intros self σ Hrun.
  - injection Hrun as <- _. reflexivity.
  - simpl in Hrun. apply bind_inv in Hrun as (self1 & σ1 & Hstep & Hrun).
    rewrite (IH _ _ Hrun). exact (prepaid_step_start _ _ _ _ _ Hstep).
Qed.

Lemma term_cancel_contract_frame
  (self self' : TermContract.t) (σ σ' : store) (owed : Q) :
  TermContract.cancel_contract self σ = Ok ((owed, self'), σ') ->
  self' = self /\ σ' = σ.
Proof.
  unfold TermContract.cancel_contract. intros H.
  apply bind_inv in H as (cy & σ1 & Hcy & H).
  assert (σ1 = σ) as ->.
  { destruct (TermContract._curr_year self); [|discriminate].
    now injection Hcy as _ <-. }
  apply bind_inv in H as (refund & σ2 & Hrefund & H).
  assert (σ2 = σ) as ->.
  { destruct (cy >=? _).
    - apply bind_inv in Hrefund as (cm & σ3 & Hcm & Hrefund).
      destruct (TermContract._curr_month self); [|discriminate].
      injection Hcm as _ <-. now injection Hrefund as _ <-.
    - now injection Hrefund as _ <-. }
  destruct refund; apply bind_inv in H as (cost & σ3 & Hread & H);
    apply read_bill_inv in Hread as ->; injection H as _ <- <-; now split.
Qed.

(** C10. Cancelling a term contract or a prepaid contract changes neither
    the contract nor any bill.  So [start] is what it was: for a contract
    created on a start date and run through any operations of the driver,
    it is still that date once the contract is cancelled, where the
    default [cancel_contract] leaves [None]. *)
Theorem term_prepaid_cancel_contract_keep_start :
  (forall (self self' : TermContract.t) (σ σ' : store) (owed : Q),
      TermContract.cancel_contract self σ = Ok ((owed, self'), σ') ->
      self' = self /\ σ' = σ)
  /\ (forall (self self' : PrepaidContract.t) (σ σ' : store) (owed : Q),
         PrepaidContract.cancel_contract self σ = Ok ((owed, self'), σ') ->
         self' = self /\ σ' = σ)
  /\ (forall (ops : list term_op) (s e : datetime.date)
             (self self' : TermContract.t) (σ σ1 σ' : store) (owed : Q),
         term_run ops (TermContract.__init__ s e) σ = Ok (self, σ1) ->
         TermContract.cancel_contract self σ1 = Ok ((owed, self'), σ') ->
         TermContract.start self' = Some s)
  /\ (forall (ops : list prepaid_op) (s : datetime.date) (b : Q)
             (self : PrepaidContract.t) (σ σ1 : store),
         prepaid_run ops (PrepaidContract.__init__ s b) σ = Ok (self, σ1) ->
         exists owed : Q,
           PrepaidContract.cancel_contract self σ1 = Ok ((owed, self), σ1)
           /\ PrepaidContract.start self = Some s).
Proof.
  split; [exact term_cancel_contract_frame|]. split; [|split].
  - intros self self' σ σ' owed. rewrite prepaid_cancel_contract_run.
    intros [= _ <- <-]. now split.
  - intros ops s e self self' σ σ1 σ' owed Hrun Hcancel.
    apply term_cancel_contract_frame in Hcancel as [-> _].
    rewrite (term_run_start _ _ _ _ _ Hrun). reflexivity.
  - intros ops s b self σ σ1 Hrun.
    eexists. split; [apply prepaid_cancel_contract_run|].
    rewrite (prepaid_run_start _ _ _ _ _ Hrun). reflexivity.
Qed.

Lemma term_prepaid_cancel_contract_keep_start_witness :
  exists (self self' : TermContract.t) (σ1 σ' : store) (owed : Q),
    term_run [NewMonth 7 2023 0%nat; BillCall (mkCall 90)] sample_term one_bill
    = Ok (self, σ1)
    /\ TermContract.cancel_contract self σ1 = Ok ((owed, self'), σ')
    /\ TermContract.start self' = Some jan_15_2023.
Proof.
  eexists _, _, _, _, _.
  split; [vm_compute; reflexivity|]. split; [vm_compute; reflexivity|].
  refine (proj1 (proj2 (proj2 term_prepaid_cancel_contract_keep_start))
            [NewMonth 7 2023 0%nat; BillCall (mkCall 90)]
            jan_15_2023 jun_25_2023 _ _ one_bill _ _ _ _ _);
    vm_compute; reflexivity.
Defined.

(** ** Term contracts: the deposit *)

Lemma total_fixed_cost_insert (σ : store) (l : loc) (b b' : Bill) :
  σ !! l = Some b ->
  (total_fixed_cost (<[l := b']> σ)
   == total_fixed_cost σ + (fixed_cost b' - fixed_cost b))%Q.
Proof.
  intros Hl. unfold total_fixed_cost.
  set (f := fun (_ : loc) (x : Bill) (acc : Q) => (fixed_cost x + acc)%Q).
  assert (Hproper : forall j z, Proper (Qeq ==> Qeq) (f j z)).
  { intros j z x y E. unfold f. now rewrite E. }
  assert (Hcomm : forall j1 j2 z1 z2 y,
             (f j1 z1 (f j2 z2 y) == f j2 z2 (f j1 z1 y))%Q).
  { intros. unfold f. ring. }
  pose proof (map_fold_delete Qeq f 0%Q l b σ Hproper
                (fun j1 j2 z1 z2 y _ _ _ => Hcomm j1 j2 z1 z2 y) Hl) as Hdel.
  pose proof (map_fold_insert Qeq f 0%Q l b' (delete l σ) Hproper
                (fun j1 j2 z1 z2 y _ _ _ => Hcomm j1 j2 z1 z2 y)
                (lookup_delete_eq σ l)) as Hins.
  rewrite insert_delete_eq in Hins. rewrite Hins, Hdel. unfold f. ring.
Qed.

Lemma in_start_cycle_true (s : datetime.date) (c : cycle) :
  in_start_cycle s c = true <-> cycle_key c = date_key s.
Proof.
  unfold in_start_cycle, cycle_key, date_key.
  rewrite andb_true_iff, !Z.eqb_eq. split.
  - intros [-> ->]. reflexivity.
  - intros [= -> ->]. now split.
Qed.

Lemma start_cycles_absent (s : datetime.date) (cs : list cycle) :
  ~ In (date_key s) (map cycle_key cs) -> start_cycles s cs = 0%nat.
Proof.
  unfold start_cycles. induction cs as [|c cs IH]; [reflexivity|].
  simpl. intros Hnot. destruct (in_start_cycle s c) eqn:E.
  - apply in_start_cycle_true in E. exfalso. apply Hnot. now left.
  - apply IH. intros Hin. apply Hnot. now right.
Qed.

Lemma start_cycles_once (s : datetime.date) (cs : list cycle) :
  NoDup (map cycle_key cs) ->
  In (date_key s) (map cycle_key cs) -> start_cycles s cs = 1%nat.
Proof.
  induction cs as [|c cs IH]; [intros _ []|].
  simpl. intros Hnd Hin. inversion Hnd as [|k ks Hfresh Hnd' [Ek Eks]].
  unfold start_cycles in *. simpl.
  destruct (in_start_cycle s c) eqn:E.
  - apply in_start_cycle_true in E. simpl. f_equal.
    apply (start_cycles_absent s cs). rewrite <- E.
    intros Habs. apply Hfresh. now apply list_elem_of_In.
  - apply IH; [exact Hnd'|]. destruct Hin as [Hin|Hin]; [|exact Hin].
    apply in_start_cycle_true in Hin. congruence.
Qed.

(** Whatever the cycles, the fixed costs grow by the monthly fee for each
    cycle and by the deposit for each cycle on the start month and year. *)
Lemma term_new_months_total (cs : list cycle) :
  forall (self : TermContract.t) (σ : store) (s : datetime.date),
    TermContract.start self = Some s ->
    Forall (fun c => is_Some (σ !! cycle_bill c)) cs ->
    exists (self' : TermContract.t) (σ' : store),
      term_new_months cs self σ = Ok (self', σ')
      /\ (total_fixed_cost σ'
          == total_fixed_cost σ
             + TERM_MONTHLY_FEE * inject_Z (Z.of_nat (length cs))
             + TERM_DEPOSIT * inject_Z (Z.of_nat (start_cycles s cs)))%Q.
Proof.
  induction cs as [|c cs IH]; intros self σ s Hstart Hbills.
  - exists self, σ. split; [reflexivity|].
    unfold start_cycles. simpl. ring.
  - inversion Hbills as [|c' cs' [b Hb] Hrest [Ec Ecs]]. subst c' cs'.
    pose proof (term_new_month_Ok (cycle_month c) (cycle_year c)
                  (cycle_bill c) self σ s b Hstart Hb) as Hstep.
    set (self1 := term_month_self _ _ _ _) in Hstep.
    set (b1 := term_month_bill _ _ _ _) in Hstep.
    destruct (IH self1 (<[cycle_bill c := b1]> σ) s) as (self' & σ' & Hrun & Htotal).
    { exact Hstart. }
    { eapply Forall_impl; [exact Hrest|]. intros c0 Hc0. cbv beta.
      destruct (decide (cycle_bill c = cycle_bill c0)) as [E|Hne].
      - rewrite <- E, lookup_insert_eq. eauto.
      - rewrite lookup_insert_ne by exact Hne. exact Hc0. }
    exists self', σ'. split.
    { simpl. rewrite (bind_Ok _ _ _ _ _ Hstep). exact Hrun. }
    rewrite Htotal, (total_fixed_cost_insert σ (cycle_bill c) b b1 Hb).
    unfold start_cycles. cbn [List.filter length].
    subst b1. unfold term_month_bill.
    change ((cycle_month c =? datetime.month s)
            && (cycle_year c =? datetime.year s)) with (in_start_cycle s c).
    rewrite Nat2Z.inj_succ, <- Z.add_1_r, inject_Z_plus.
    destruct (in_start_cycle s c); cbn [length fixed_cost BillOps.set_rates
      BillOps.add_fixed_cost].
    + rewrite Nat2Z.inj_succ, <- Z.add_1_r, inject_Z_plus.
      unfold TERM_MONTHLY_FEE, TERM_DEPOSIT. ring.
    + unfold TERM_MONTHLY_FEE, TERM_DEPOSIT. ring.
Qed.

(** C6. A term contract's [new_month] on a bill at hand adds the deposit
    of 300 to the fixed cost of that bill, before the monthly fee of 20,
    when the month and the year are those of [start], and the monthly fee
    alone otherwise.  Over cycles of distinct month and year, each with
    its bill at hand, all [new_month] calls succeed and the fixed costs of
    all bills together grow by the monthly fee per cycle and by one
    deposit when the start month and year are among the cycles, by none
    when they are not. *)
Theorem term_new_month_deposit_once :
  (forall (m y : Z) (l : loc) (self : TermContract.t) (σ : store)
          (s : datetime.date) (b : Bill),
      TermContract.start self = Some s ->
      σ !! l = Some b ->
      let starting := m = datetime.month s /\ y = datetime.year s in
      exists (self' : TermContract.t) (b' : Bill),
        TermContract.new_month m y l self σ = Ok (self', <[l := b']> σ)
        /\ (starting -> fixed_cost b' = (fixed_cost b + 300 + 20)%Q)
        /\ (~ starting -> fixed_cost b' = (fixed_cost b + 20)%Q)
        /\ ((fixed_cost b' == fixed_cost b + 300 + 20)%Q <-> starting)
        /\ TermContract.start self' = Some s)
  /\ (forall (cs : list cycle) (self : TermContract.t) (σ : store)
             (s : datetime.date),
         TermContract.start self = Some s ->
         NoDup (map cycle_key cs) ->
         Forall (fun c => is_Some (σ !! cycle_bill c)) cs ->
         let fees := (20 * inject_Z (Z.of_nat (length cs)))%Q in
         exists (self' : TermContract.t) (σ' : store),
           term_new_months cs self σ = Ok (self', σ')
           /\ (In (date_key s) (map cycle_key cs) ->
               (total_fixed_cost σ' == total_fixed_cost σ + fees + 300)%Q)
           /\ (~ In (date_key s) (map cycle_key cs) ->
               (total_fixed_cost σ' == total_fixed_cost σ + fees)%Q)).
Proof.
  split.
  - intros m y l self σ s b Hstart Hl starting.
    rewrite (term_new_month_Ok m y l self σ s b Hstart Hl).
    eexists _, _. split; [reflexivity|].
    unfold term_month_bill, starting.
    destruct (Z.eqb_spec m (datetime.month s)) as [Hm|Hm];
      [destruct (Z.eqb_spec y (datetime.year s)) as [Hy|Hy]|];
      cbn [andb fixed_cost BillOps.set_rates BillOps.add_fixed_cost];
      unfold TERM_DEPOSIT, TERM_MONTHLY_FEE.
    all: repeat split; try exact Hstart; intros;
      first [reflexivity | assumption | lia | tauto | exfalso; lra].
  - intros cs self σ s Hstart Hnd Hbills fees.
    destruct (term_new_months_total cs self σ s Hstart Hbills)
      as (self' & σ' & Hrun & Htotal).
    exists self', σ'. split; [exact Hrun|].
    unfold TERM_MONTHLY_FEE, TERM_DEPOSIT in Htotal. subst fees. split.
    + intros Hin. rewrite Htotal, (start_cycles_once s cs Hnd Hin).
      change (inject_Z (Z.of_nat 1)) with 1%Q. ring.
    + intros Hout. rewrite Htotal, (start_cycles_absent s cs Hout).
      change (inject_Z (Z.of_nat 0)) with 0%Q. ring.
Qed.

Lemma term_new_month_deposit_once_witness :
  exists (self' : TermContract.t) (σ' : store),
    term_new_months [mkCycle 1 2023 0%nat; mkCycle 2 2023 0%nat;
                     mkCycle 1 2024 0%nat] sample_term one_bill
    = Ok (self', σ')
    /\ (total_fixed_cost σ'
        == total_fixed_cost one_bill + 20 * inject_Z (Z.of_nat 3) + 300)%Q.
Proof.
  destruct (proj2 term_new_month_deposit_once
              [mkCycle 1 2023 0%nat; mkCycle 2 2023 0%nat;
               mkCycle 1 2024 0%nat] sample_term one_bill jan_15_2023)
    as (self' & σ' & Hrun & Honce & _).
  - reflexivity.
  - repeat constructor; simpl; rewrite ?list_elem_of_In; simpl;
      intuition discriminate.
  - repeat constructor; simpl; exists BillOps.__init__; reflexivity.
  - exists self', σ'. split; [exact Hrun|]. apply Honce. simpl. now left.
Defined.

(** C6, the case left out.  A term contract started in January 2023 and
    billed for February and March 2023, two distinct cycles: both
    [new_month] calls succeed and the fixed costs grow by the two monthly
    fees only.  The deposit is charged in none of these cycles. *)
Lemma term_deposit_never_charged_without_start_cycle :
  let cs := [mkCycle 2 2023 0%nat; mkCycle 3 2023 0%nat] in
  TermContract.start sample_term = Some jan_15_2023
  /\ NoDup (map cycle_key cs)
  /\ Forall (fun c => is_Some (one_bill !! cycle_bill c)) cs
  /\ exists (self' : TermContract.t) (σ' : store),
       term_new_months cs sample_term one_bill = Ok (self', σ')
       /\ (total_fixed_cost σ' == total_fixed_cost one_bill + 20 + 20)%Q
       /\ ~ (total_fixed_cost σ'
             == total_fixed_cost one_bill + 20 + 20 + 300)%Q.
Proof.
  cbv zeta. split; [reflexivity|]. split.
  { repeat constructor; simpl; rewrite ?list_elem_of_In; simpl;
      intuition discriminate. }
  split.
  { repeat constructor; simpl; exists BillOps.__init__; reflexivity. }
  eexists _, _. split; [vm_compute; reflexivity|].
  split; [vm_compute; reflexivity|].
  vm_compute. discriminate.
Qed.

(** ** A month-to-month contract, end to end *)

(** A month-to-month contract started in January 2023, one [new_month]
    and one call of 90 seconds: 2 billed minutes at the month-to-month
    rate on a fixed cost of 50. *)
Example mtm_end_to_end :
  exists (self : MTMContract.t) (σ : store) (b : Bill),
    (self1 ← MTMContract.new_month 1 2023 0%nat
               (MTMContract.__init__ jan_15_2023);
     MTMContract.bill_call (mkCall 90) self1) one_bill = Ok (self, σ)
    /\ σ !! 0%nat = Some b
    /\ billed_min b = 2
    /\ min_rate b = MTM_MINS_COST
    /\ (fixed_cost b == 50)%Q.
Proof.
  eexists _, _, _. split; [vm_compute; reflexivity|].
  split; [vm_compute; reflexivity|]. repeat split; reflexivity.
Qed.

(** * Further properties *)

(** ** Minutes of several calls *)

Lemma ceil60_least (x : Q) (k : Z) :
  (x <= 60 * inject_Z k)%Q -> ceil60 x <= k.
Proof.
  intros Hk. pose proof (ceil60_lower x) as Hlo.
  assert (H : (inject_Z (ceil60 x - 1) < inject_Z k)%Q) by lra.
  rewrite <- Zlt_Qlt in H. lia.
Qed.

Lemma ceil60_inject_bounds (n : Z) : 0 <= n -> 0 <= ceil60 (inject_Z n) <= n.
Proof.
  intros Hn. split.
  - apply ceil60_nonneg. change 0%Q with (inject_Z 0). now rewrite <- Zle_Qle.
  - apply ceil60_least.
    assert (H : (inject_Z 0 <= inject_Z n)%Q) by now rewrite <- Zle_Qle.
    change (inject_Z 0) with 0%Q in H. lra.
Qed.

Lemma total_minutes_nonneg (calls : list Call) :
  nonneg_calls calls -> 0 <= total_minutes calls.
Proof.
  induction 1 as [|c calls Hc _ IH]; simpl; [lia|].
  pose proof (ceil60_nonneg _ Hc). lia.
Qed.

Lemma call_bill_inv (r : option loc) (method : Bill -> Bill) (σ σ' : store) (u : unit) :
  call_bill r method σ = Ok (u, σ') ->
  exists l b, r = Some l /\ σ !! l = Some b /\ σ' = <[l := method b]> σ.
Proof.
  unfold call_bill, getattr, deref, assign, raise, mbind, M_bind, mret, M_ret.
  destruct r as [l|]; [|discriminate].
  destruct (σ !! l) as [b|] eqn:E; [|discriminate].
  intros [= <-]. now exists l, b.
Qed.

Lemma add_billed_minutes_0 (b : Bill) : BillOps.add_billed_minutes 0 b = b.
Proof. destruct b. unfold BillOps.add_billed_minutes. simpl. f_equal. lia. Qed.

Lemma add_billed_minutes_add (m n : Z) (b : Bill) :
  BillOps.add_billed_minutes n (BillOps.add_billed_minutes m b)
  = BillOps.add_billed_minutes (m + n) b.
Proof. unfold BillOps.add_billed_minutes. simpl. f_equal. lia. Qed.

(** ** Month-to-month contracts over a cycle *)

Lemma default_bill_call_run
  (call : Call) (self : Contract.t) (σ : store) (l : loc) (b : Bill) :
  Contract.bill self = Some l ->
  σ !! l = Some b ->
  Contract.bill_call call self σ
  = Ok (self, <[l := BillOps.add_billed_minutes (ceil60 (duration call)) b]> σ).
Proof.
  intros Hbill Hl. unfold Contract.bill_call. rewrite Hbill.
  erewrite bind_Ok by (apply call_bill_Ok; exact Hl). reflexivity.
Qed.

Lemma default_bill_calls_run (calls : list Call) :
  forall (self : Contract.t) (σ : store) (l : loc) (b : Bill),
    Contract.bill self = Some l ->
    σ !! l = Some b ->
    default_bill_calls calls self σ
    = Ok (self, <[l := BillOps.add_billed_minutes (total_minutes calls) b]> σ).
Proof.
  induction calls as [|c calls IH]; intros self σ l b Hbill Hl.
  - simpl. rewrite add_billed_minutes_0, insert_id by exact Hl. reflexivity.
  - simpl.
    rewrite (bind_Ok _ _ _ _ _ (default_bill_call_run c self σ l b Hbill Hl)).
    rewrite (IH self _ l _ Hbill (lookup_insert_eq _ _ _)).
    rewrite insert_insert_eq, add_billed_minutes_add. reflexivity.
Qed.

(** X1. One cycle of a month-to-month contract on a bill at hand, whatever
    the month, the year and the calls: [new_month] followed by the calls
    always succeeds, binds the bill, adds the fee of 50 to its fixed cost,
    sets its rate to [MTM_MINS_COST] and its plan to MTM, and adds to its
    billed minutes the minutes of the calls, each rounded up; no free
    minute is logged.  Cancelling then returns what [get_cost] gives on
    that bill and clears [start]. *)
Theorem mtm_cycle_cost
  (month year : Z) (l : loc) (calls : list Call) (self : MTMContract.t)
  (σ : store) (b : Bill) :
  σ !! l = Some b ->
  let self' := Contract.set_bill (Some l) self in
  exists b' : Bill,
    mtm_cycle month year l calls self σ = Ok (self', <[l := b']> σ)
    /\ billed_min b' = billed_min b + total_minutes calls
    /\ free_min b' = free_min b
    /\ fixed_cost b' = (fixed_cost b + 50)%Q
    /\ min_rate b' = MTM_MINS_COST
    /\ type b' = "MTM"%string
    /\ MTMContract.cancel_contract self' (<[l := b']> σ)
       = Ok ((BillOps.get_cost b', Contract.set_start None self'),
             <[l := b']> σ).
Proof.
  intros Hl self'. unfold mtm_cycle, MTMContract.new_month. fold self'.
  change (Contract.bill self') with (Some l).
  erewrite bind_Ok.
  2:{ erewrite bind_Ok by (apply call_bill_Ok; exact Hl).
      erewrite bind_Ok by (apply call_bill_Ok; apply lookup_insert_eq).
      rewrite insert_insert_eq. reflexivity. }
  erewrite default_bill_calls_run by (reflexivity || apply lookup_insert_eq).
  rewrite insert_insert_eq. eexists. split; [reflexivity|].
  repeat split.
  unfold MTMContract.cancel_contract, Contract.cancel_contract.
  change (Contract.bill (Contract.set_start None self')) with (Some l).
  erewrite bind_Ok by (apply read_bill_Ok; apply lookup_insert_eq).
  reflexivity.
Qed.

Lemma mtm_cycle_cost_witness :
  exists b' : Bill,
    mtm_cycle 1 2023 0%nat [mkCall 90; mkCall 1]
      (MTMContract.__init__ jan_15_2023) one_bill
    = Ok (Contract.mk (Some jan_15_2023) (Some 0%nat), <[0%nat := b']> one_bill)
    /\ billed_min b' = 3.
Proof.
  destruct (mtm_cycle_cost 1 2023 0%nat [mkCall 90; mkCall 1]
              (MTMContract.__init__ jan_15_2023) one_bill BillOps.__init__
              eq_refl)
    as (b' & Hrun & Hbilled & _).
  exists b'. split; [exact Hrun|]. rewrite Hbilled. reflexivity.
Defined.

(** ** Term contracts over a cycle *)

Lemma term_bill_calls_run (calls : list Call) :
  forall (self : TermContract.t) (σ : store) (l : loc) (b : Bill),
    TermContract.bill self = Some l ->
    σ !! l = Some b ->
    nonneg_calls calls ->
    0 <= TermContract._free self ->
    let free := TermContract._free self in
    let total := total_minutes calls in
    exists b' : Bill,
      term_run (map BillCall calls) self σ
      = Ok (TermContract.set_free (Z.max 0 (free - total)) self,
            <[l := b']> σ)
      /\ billed_min b' = billed_min b + Z.max 0 (total - free)
      /\ free_min b <= free_min b' <= free_min b + Z.min free total
      /\ (total <= free -> free_min b' = free_min b + total)
      /\ min_rate b' = min_rate b
      /\ fixed_cost b' = fixed_cost b
      /\ type b' = type b.
Proof.
  induction calls as [|c calls IH]; intros self σ l b Hbill Hl Hcalls Hfree.
  - exists b. simpl. rewrite insert_id by exact Hl.
    replace (Z.max 0 (TermContract._free self - 0))
      with (TermContract._free self) by lia.
    split; [destruct self; reflexivity|].
    repeat split; intros; lia.
  - inversion Hcalls as [|c' calls' Hc Hcalls' [Ec Ecalls]]. subst c' calls'.
    pose proof (ceil60_nonneg _ Hc) as Hm.
    pose proof (total_minutes_nonneg calls Hcalls') as Htot.
    pose proof (term_bill_call_run c self σ l b Hbill Hl) as Hstep.
    cbv zeta in Hstep. cbn [map term_run term_step total_minutes fold_right].
    fold (total_minutes calls).
    destruct (Z.leb_spec (ceil60 (duration c)) (TermContract._free self))
      as [Hle|Hgt].
    + destruct (IH (TermContract.set_free
                      (TermContract._free self - ceil60 (duration c)) self)
                  (<[l := BillOps.add_free_minutes (ceil60 (duration c)) b]> σ)
                  l (BillOps.add_free_minutes (ceil60 (duration c)) b))
        as (b' & Hrun & Hbilled & Hlog & Hexact & Hrate & Hfixed & Htype);
        [exact Hbill | apply lookup_insert_eq | exact Hcalls'
        | simpl; lia |].
      cbn [TermContract._free TermContract.set_free] in *.
      cbn [BillOps.add_free_minutes billed_min free_min min_rate fixed_cost
           type] in *.
      exists b'. rewrite (bind_Ok _ _ _ _ _ Hstep), Hrun, insert_insert_eq.
      split.
      { do 2 f_equal. unfold TermContract.set_free. simpl. f_equal. lia. }
      repeat split; intros; try assumption; try lia.
    + pose proof (ceil60_inject_bounds _ Hfree) as Hlogged.
      destruct (IH (TermContract.set_free 0 self)
                  (<[l := BillOps.add_billed_minutes
                            (ceil60 (duration c) - TermContract._free self)
                            (BillOps.add_free_minutes
                               (ceil60 (inject_Z (TermContract._free self)))
                               b)]> σ)
                  l
                  (BillOps.add_billed_minutes
                     (ceil60 (duration c) - TermContract._free self)
                     (BillOps.add_free_minutes
                        (ceil60 (inject_Z (TermContract._free self))) b)))
        as (b' & Hrun & Hbilled & Hlog & Hexact & Hrate & Hfixed & Htype);
        [exact Hbill | apply lookup_insert_eq | exact Hcalls'
        | simpl; lia |].
      cbn [TermContract._free TermContract.set_free] in *.
      cbn [BillOps.add_free_minutes BillOps.add_billed_minutes billed_min
           free_min min_rate fixed_cost type] in *.
      exists b'. rewrite (bind_Ok _ _ _ _ _ Hstep), Hrun, insert_insert_eq.
      split.
      { do 2 f_equal. unfold TermContract.set_free. simpl. f_equal. lia. }
      repeat split; intros; try assumption; try lia.
Qed.

(** X2. The calls of a cycle on a term contract, with the bill bound and
    at hand, the durations non-negative and the counter [_free] not
    negative: billing them always succeeds, leaves in [_free] what the
    minutes of the calls do not use up, and adds to the billed minutes of
    the bill the minutes beyond [_free], and no more.  The rate, the fixed
    cost and the plan name of the bill are not touched. *)
Theorem term_calls_bill_the_excess
  (calls : list Call) (self : TermContract.t) (σ : store) (l : loc) (b : Bill) :
  TermContract.bill self = Some l ->
  σ !! l = Some b ->
  nonneg_calls calls ->
  0 <= TermContract._free self ->
  let free := TermContract._free self in
  let total := total_minutes calls in
  exists (self' : TermContract.t) (b' : Bill),
    term_run (map BillCall calls) self σ = Ok (self', <[l := b']> σ)
    /\ self' = TermContract.set_free (Z.max 0 (free - total)) self
    /\ billed_min b' = billed_min b + Z.max 0 (total - free)
    /\ min_rate b' = min_rate b
    /\ fixed_cost b' = fixed_cost b
    /\ type b' = type b.
Proof.
  intros Hbill Hl Hcalls Hfree free total.
  destruct (term_bill_calls_run calls self σ l b Hbill Hl Hcalls Hfree)
    as (b' & Hrun & Hbilled & _ & _ & Hrate & Hfixed & Htype).
  eexists _, b'. split; [exact Hrun|]. now repeat split.
Qed.

Lemma term_calls_bill_the_excess_witness :
  let self := TermContract.set_bill (Some 0%nat) sample_term in
  exists (self' : TermContract.t) (b' : Bill),
    term_run (map BillCall [mkCall 3600; mkCall 3000]) self one_bill
    = Ok (self', <[0%nat := b']> one_bill)
    /\ TermContract._free self' = 0
    /\ billed_min b' = 10.
Proof.
  intros self.
  destruct (term_calls_bill_the_excess [mkCall 3600; mkCall 3000]
              self one_bill 0%nat BillOps.__init__)
    as (self' & b' & Hrun & Hself & Hbilled & _).
  - reflexivity.
  - reflexivity.
  - repeat constructor; simpl; unfold Qle; simpl; lia.
  - simpl. unfold TERM_MINS. lia.
  - exists self', b'. split; [exact Hrun|].
    split; [rewrite Hself | rewrite Hbilled]; reflexivity.
Defined.

(** X3. The free minutes a term contract logs on the bill over the calls
    of a cycle (bill bound and at hand, durations non-negative, [_free]
    not negative): never fewer than were on the bill, never more than the
    minutes taken from [_free]; exactly the minutes of the calls when
    [_free] covers them all; and none, every minute being billed, once
    [_free] is 0. *)
Theorem term_calls_free_minutes_logged
  (calls : list Call) (self : TermContract.t) (σ : store) (l : loc) (b : Bill) :
  TermContract.bill self = Some l ->
  σ !! l = Some b ->
  nonneg_calls calls ->
  0 <= TermContract._free self ->
  let free := TermContract._free self in
  let total := total_minutes calls in
  exists (self' : TermContract.t) (b' : Bill),
    term_run (map BillCall calls) self σ = Ok (self', <[l := b']> σ)
    /\ free_min b <= free_min b'
    /\ free_min b' - free_min b <= free - TermContract._free self'
    /\ (total <= free ->
        free_min b' = free_min b + total /\ billed_min b' = billed_min b)
    /\ (free = 0 ->
        free_min b' = free_min b /\ billed_min b' = billed_min b + total).
Proof.
  intros Hbill Hl Hcalls Hfree free total.
  destruct (term_bill_calls_run calls self σ l b Hbill Hl Hcalls Hfree)
    as (b' & Hrun & Hbilled & Hlog & Hexact & _).
  pose proof (total_minutes_nonneg calls Hcalls) as Htot.
  eexists _, b'. split; [exact Hrun|].
  cbn [TermContract._free TermContract.set_free]. fold free total in Hbilled, Hlog, Hexact |- *.
  repeat split; intros; lia.
Qed.

Lemma term_calls_free_minutes_logged_witness :
  let self := TermContract.set_bill (Some 0%nat) sample_term in
  exists (self' : TermContract.t) (b' : Bill),
    term_run (map BillCall [mkCall 3600; mkCall 2400]) self one_bill
    = Ok (self', <[0%nat := b']> one_bill)
    /\ free_min b' = 100
    /\ billed_min b' = 0.
Proof.
  intros self.
  destruct (term_calls_free_minutes_logged [mkCall 3600; mkCall 2400]
              self one_bill 0%nat BillOps.__init__)
    as (self' & b' & Hrun & _ & _ & Hcovered & _).
  - reflexivity.
  - reflexivity.
  - repeat constructor; simpl; unfold Qle; simpl; lia.
  - simpl. unfold TERM_MINS. lia.
  - exists self', b'. split; [exact Hrun|].
    apply Hcovered. vm_compute. discriminate.
Defined.

(** X4. One cycle of a term contract and its cancellation.  With [start]
    set, the bill at hand and calls of non-negative duration, [new_month]
    followed by the calls and by [cancel_contract] always succeeds.  The
    bill then has the rate [TERM_MINS_COST], as billed minutes those it
    had and the minutes of the calls beyond 100, and as fixed cost what it
    had, plus the deposit of 300 when the cycle is the start month and
    year, plus the fee of 20.  The amount returned is what [get_cost]
    gives on that bill, less 300 when the year of the cycle is not before
    the end year and its month is after the end month: the month and year
    that decide the refund are those of this [new_month]. *)
Theorem term_cycle_then_cancel
  (m y : Z) (l : loc) (calls : list Call) (self : TermContract.t)
  (σ : store) (s : datetime.date) (b : Bill) :
  TermContract.start self = Some s ->
  σ !! l = Some b ->
  nonneg_calls calls ->
  let ends := TermContract.end_date self in
  exists (self' : TermContract.t) (b' : Bill),
    term_cycle m y l calls self σ = Ok (self', <[l := b']> σ)
    /\ billed_min b' = billed_min b + Z.max 0 (total_minutes calls - 100)
    /\ min_rate b' = TERM_MINS_COST
    /\ fixed_cost b'
       = (if (m =? datetime.month s) && (y =? datetime.year s)
          then fixed_cost b + 300 + 20 else fixed_cost b + 20)%Q
    /\ TermContract._free self' = Z.max 0 (100 - total_minutes calls)
    /\ TermContract.cancel_contract self' (<[l := b']> σ)
       = Ok ((if (y >=? datetime.year ends) && (m >? datetime.month ends)
              then (BillOps.get_cost b' - 300)%Q else BillOps.get_cost b',
              self'), <[l := b']> σ).
Proof.
  intros Hstart Hl Hcalls ends.
  pose proof (term_new_month_Ok m y l self σ s b Hstart Hl) as Hmonth.
  destruct (term_bill_calls_run calls (term_month_self m y l self)
              (<[l := term_month_bill m y s b]> σ) l
              (term_month_bill m y s b))
    as (b' & Hrun & Hbilled & _ & _ & Hrate & Hfixed & _);
    [reflexivity | apply lookup_insert_eq | exact Hcalls
    | simpl; unfold TERM_MINS; lia |].
  rewrite insert_insert_eq in Hrun.
  cbn [TermContract._free term_month_self TermContract.set_curr_year
       TermContract.set_curr_month TermContract.set_free] in Hrun, Hbilled.
  unfold TERM_MINS in Hrun, Hbilled.
  eexists _, b'. split.
  { unfold term_cycle. cbn [term_run term_step].
    rewrite (bind_Ok _ _ _ _ _ Hmonth). exact Hrun. }
  split.
  { rewrite Hbilled. unfold term_month_bill.
    destruct ((m =? datetime.month s) && (y =? datetime.year s)); reflexivity. }
  split.
  { rewrite Hrate. reflexivity. }
  split.
  { rewrite Hfixed. unfold term_month_bill.
    destruct ((m =? datetime.month s) && (y =? datetime.year s)); reflexivity. }
  split; [reflexivity|].
  exact (term_cancel_contract_run
           (TermContract.set_free (Z.max 0 (100 - total_minutes calls))
              (term_month_self m y l self))
           (<[l := b']> σ) l b' m y eq_refl eq_refl eq_refl
           (lookup_insert_eq _ _ _)).
Qed.

Lemma term_cycle_then_cancel_witness :
  exists (self' : TermContract.t) (b' : Bill),
    term_cycle 7 2023 0%nat [mkCall 3600; mkCall 30] sample_term one_bill
    = Ok (self', <[0%nat := b']> one_bill)
    /\ billed_min b' = 0
    /\ TermContract.cancel_contract self' (<[0%nat := b']> one_bill)
       = Ok (((BillOps.get_cost b' - 300)%Q, self'), <[0%nat := b']> one_bill).
Proof.
  destruct (term_cycle_then_cancel 7 2023 0%nat [mkCall 3600; mkCall 30]
              sample_term one_bill jan_15_2023 BillOps.__init__)
    as (self' & b' & Hrun & Hbilled & _ & _ & _ & Hcancel).
  - reflexivity.
  - reflexivity.
  - repeat constructor; simpl; unfold Qle; simpl; lia.
  - exists self', b'. split; [exact Hrun|]. split; [exact Hbilled|].
    exact Hcancel.
Defined.

(** ** Before the first cycle *)

(** X5. On a contract that was created and has seen no [new_month], no
    bill is bound: [bill_call] raises [AttributeError] in the three
    classes, and so does the default [cancel_contract]; a term contract's
    [cancel_contract] raises it too, its cycle attributes not being
    assigned yet.  A prepaid contract's [cancel_contract] needs no bill
    and returns.  [new_month] of the base class raises
    [NotImplementedError] whatever its arguments. *)
Theorem methods_before_first_new_month
  (s e : datetime.date) (bal : Q) (c : Call) (m y : Z) (l : loc)
  (self : Contract.t) (σ : store) :
  Contract.bill_call c (Contract.__init__ s) σ = Raise AttributeError
  /\ Contract.cancel_contract (Contract.__init__ s) σ = Raise AttributeError
  /\ MTMContract.bill_call c (MTMContract.__init__ s) σ = Raise AttributeError
  /\ MTMContract.cancel_contract (MTMContract.__init__ s) σ
     = Raise AttributeError
  /\ TermContract.bill_call c (TermContract.__init__ s e) σ
     = Raise AttributeError
  /\ TermContract.cancel_contract (TermContract.__init__ s e) σ
     = Raise AttributeError
  /\ PrepaidContract.bill_call c (PrepaidContract.__init__ s bal) σ
     = Raise AttributeError
  /\ (exists owed : Q,
         PrepaidContract.cancel_contract (PrepaidContract.__init__ s bal) σ
         = Ok ((owed, PrepaidContract.__init__ s bal), σ))
  /\ Contract.new_month m y l self σ = Raise NotImplementedError.
Proof.
  repeat split; try reflexivity.
  - unfold TermContract.bill_call.
    destruct (ceil60 (duration c) <=? _); reflexivity.
  - eexists. apply prepaid_cancel_contract_run.
Qed.

(** ** The bills a method changes *)

Lemma read_bill_inv_value {A : Type}
  (r : option loc) (method : Bill -> A) (σ σ' : store) (a : A) :
  read_bill r method σ = Ok (a, σ') ->
  exists l b, r = Some l /\ σ !! l = Some b /\ a = method b /\ σ' = σ.
Proof.
  unfold read_bill, getattr, deref, raise, mbind, M_bind, mret, M_ret.
  destruct r as [l|]; [|discriminate].
  destruct (σ !! l) as [b|] eqn:E; [|discriminate].
  intros [= <- <-]. now exists l, b.
Qed.

Lemma insert_frame (σ : store) (l : loc) (b b' : Bill) :
  σ !! l = Some b ->
  dom (<[l := b']> σ) = dom σ
  /\ forall l' : loc, l' <> l -> <[l := b']> σ !! l' = σ !! l'.
Proof.
  intros Hl. split.
  - rewrite dom_insert_L. pose proof (elem_of_dom_2 σ l b Hl) as Hdom.
    apply set_eq. intros k. rewrite elem_of_union, elem_of_singleton.
    split; [intros [->|Hk]; assumption | now right].
  - intros l' Hne. apply lookup_insert_ne. congruence.
Qed.

Lemma default_bill_call_inv
  (call : Call) (self self' : Contract.t) (σ σ' : store) :
  Contract.bill_call call self σ = Ok (self', σ') ->
  exists l b, Contract.bill self = Some l /\ σ !! l = Some b.
Proof.
  unfold Contract.bill_call. intros H.
  apply bind_inv in H as (u & σ1 & Hcall & _).
  apply call_bill_inv in Hcall as (l & b & Hbill & Hl & _). eauto.
Qed.

Lemma term_bill_call_inv
  (call : Call) (self self' : TermContract.t) (σ σ' : store) :
  TermContract.bill_call call self σ = Ok (self', σ') ->
  exists l b, TermContract.bill self = Some l /\ σ !! l = Some b.
Proof.
  unfold TermContract.bill_call. intros H.
  destruct (ceil60 (duration call) <=? TermContract._free self);
    apply bind_inv in H as (u & σ1 & Hcall & Hrest);
    apply call_bill_inv in Hcall as (l & b & Hbill & Hl & Hσ); eauto.
Qed.

Lemma prepaid_bill_call_run
  (call : Call) (self : PrepaidContract.t) (σ : store) (l : loc) (b : Bill) :
  PrepaidContract.bill self = Some l ->
  σ !! l = Some b ->
  let b' := BillOps.add_billed_minutes (ceil60 (duration call)) b in
  PrepaidContract.bill_call call self σ
  = Ok (PrepaidContract.set_balance (BillOps.get_cost b') self,
        <[l := b']> σ).
Proof.
  intros Hbill Hl b'. unfold PrepaidContract.bill_call. rewrite Hbill.
  erewrite bind_Ok by (apply call_bill_Ok; exact Hl).
  erewrite bind_Ok by (apply read_bill_Ok; apply lookup_insert_eq).
  reflexivity.
Qed.

Lemma prepaid_bill_call_inv
  (call : Call) (self self' : PrepaidContract.t) (σ σ' : store) :
  PrepaidContract.bill_call call self σ = Ok (self', σ') ->
  exists l b, PrepaidContract.bill self = Some l /\ σ !! l = Some b.
Proof.
  unfold PrepaidContract.bill_call. intros H.
  apply bind_inv in H as (u & σ1 & Hcall & _).
  apply call_bill_inv in Hcall as (l & b & Hbill & Hl & _). eauto.
Qed.

Lemma prepaid_new_month_inv
  (m y : Z) (l : loc) (self self' : PrepaidContract.t) (σ σ' : store) :
  PrepaidContract.new_month m y l self σ = Ok (self', σ') ->
  exists b, σ !! l = Some b.
Proof.
  unfold PrepaidContract.new_month. intros H.
  apply bind_inv in H as (u & σ1 & Hcall & _).
  apply call_bill_inv in Hcall as (l0 & b & [= <-] & Hl & _). eauto.
Qed.

(** X6. A method that returns changes no bill but the one the contract
    holds when it returns, and neither creates nor removes a bill: so for
    every step of the driver on a term or a prepaid contract, for the
    default [bill_call] and for [new_month] of a month-to-month
    contract. *)
Theorem methods_change_the_bound_bill_only :
  (forall (op : term_op) (self self' : TermContract.t) (σ σ' : store),
      term_step op self σ = Ok (self', σ') ->
      exists l : loc,
        TermContract.bill self' = Some l /\ dom σ' = dom σ
        /\ forall l' : loc, l' <> l -> σ' !! l' = σ !! l')
  /\ (forall (op : prepaid_op) (self self' : PrepaidContract.t) (σ σ' : store),
         prepaid_step op self σ = Ok (self', σ') ->
         exists l : loc,
           PrepaidContract.bill self' = Some l /\ dom σ' = dom σ
           /\ forall l' : loc, l' <> l -> σ' !! l' = σ !! l')
  /\ (forall (call : Call) (self self' : Contract.t) (σ σ' : store),
         Contract.bill_call call self σ = Ok (self', σ') ->
         exists l : loc,
           Contract.bill self' = Some l /\ dom σ' = dom σ
           /\ forall l' : loc, l' <> l -> σ' !! l' = σ !! l')
  /\ (forall (m y : Z) (l : loc) (self self' : MTMContract.t) (σ σ' : store),
         MTMContract.new_month m y l self σ = Ok (self', σ') ->
         Contract.bill self' = Some l /\ dom σ' = dom σ
         /\ forall l' : loc, l' <> l -> σ' !! l' = σ !! l').
Proof.
  split; [|split; [|split]].
  - intros [m y l|call] self self' σ σ' H; simpl in H.
    + rewrite term_new_month_run in H.
      destruct (TermContract.start self) as [s|]; [|discriminate].
      destruct (σ !! l) as [b|] eqn:Hl; [|discriminate].
      injection H as <- <-. exists l. split; [reflexivity|].
      exact (insert_frame σ l b _ Hl).
    + destruct (term_bill_call_inv _ _ _ _ _ H) as (l & b & Hbill & Hl).
      rewrite (term_bill_call_run call self σ l b Hbill Hl) in H.
      exists l. destruct (ceil60 (duration call) <=? TermContract._free self);
        injection H as <- <-; (split; [exact Hbill|]);
        exact (insert_frame σ l b _ Hl).
  - intros [m y l|call] self self' σ σ' H; simpl in H.
    + destruct (prepaid_new_month_inv _ _ _ _ _ _ _ H) as (b & Hl).
      rewrite (prepaid_new_month_run m y l self σ b Hl) in H.
      injection H as <- <-. exists l. split; [reflexivity|].
      exact (insert_frame σ l b _ Hl).
    + destruct (prepaid_bill_call_inv _ _ _ _ _ H) as (l & b & Hbill & Hl).
      rewrite (prepaid_bill_call_run call self σ l b Hbill Hl) in H.
      injection H as <- <-. exists l. split; [exact Hbill|].
      exact (insert_frame σ l b _ Hl).
  - intros call self self' σ σ' H.
    destruct (default_bill_call_inv _ _ _ _ _ H) as (l & b & Hbill & Hl).
    rewrite (default_bill_call_run call self σ l b Hbill Hl) in H.
    injection H as <- <-. exists l. split; [exact Hbill|].
    exact (insert_frame σ l b _ Hl).
  - intros m y l self self' σ σ' H. unfold MTMContract.new_month in H.
    apply bind_inv in H as (u & σ1 & Hfee & H).
    apply call_bill_inv in Hfee as (l0 & b & [= <-] & Hl & ->).
    apply bind_inv in H as (u' & σ2 & Hrate & H).
    apply call_bill_inv in Hrate as (l0 & b1 & [= <-] & _ & ->).
    injection H as <- <-. rewrite insert_insert_eq.
    split; [reflexivity|]. exact (insert_frame σ l b _ Hl).
Qed.

Lemma methods_change_the_bound_bill_only_witness :
  let σ : store := <[1%nat := BillOps.__init__]> one_bill in
  exists (self' : TermContract.t) (σ' : store),
    term_step (NewMonth 1 2023 0%nat) sample_term σ = Ok (self', σ')
    /\ σ' !! 1%nat = σ !! 1%nat.
Proof.
  intros σ. eexists _, _. split; [vm_compute; reflexivity|].
  destruct (proj1 methods_change_the_bound_bill_only
              (NewMonth 1 2023 0%nat) sample_term _ σ _ eq_refl)
    as (l & Hbill & _ & Hother).
  apply Hother. injection Hbill as <-. discriminate.
Defined.

(** ** Cancelling twice *)

(** X7. [cancel_contract] can be repeated: when it returns, a second
    [cancel_contract] on the contract and the bills it left returns the
    same amount and changes nothing more, in the three classes. *)
Theorem cancel_contract_twice :
  (forall (self self' : Contract.t) (σ σ' : store) (owed : Q),
      Contract.cancel_contract self σ = Ok ((owed, self'), σ') ->
      Contract.cancel_contract self' σ' = Ok ((owed, self'), σ'))
  /\ (forall (self self' : TermContract.t) (σ σ' : store) (owed : Q),
         TermContract.cancel_contract self σ = Ok ((owed, self'), σ') ->
         TermContract.cancel_contract self' σ' = Ok ((owed, self'), σ'))
  /\ (forall (self self' : PrepaidContract.t) (σ σ' : store) (owed : Q),
         PrepaidContract.cancel_contract self σ = Ok ((owed, self'), σ') ->
         PrepaidContract.cancel_contract self' σ' = Ok ((owed, self'), σ')).
Proof.
  split; [|split].
  - intros self self' σ σ' owed H. unfold Contract.cancel_contract in H.
    apply bind_inv in H as (cost & σ1 & Hread & H).
    apply read_bill_inv_value in Hread as (l & b & Hbill & Hl & -> & ->).
    injection H as <- <- <-. simpl in Hbill.
    unfold Contract.cancel_contract. simpl. rewrite Hbill.
    erewrite bind_Ok by (apply read_bill_Ok; exact Hl). reflexivity.
  - intros self self' σ σ' owed H.
    destruct (term_cancel_contract_frame _ _ _ _ _ H) as [-> ->]. exact H.
  - intros self self' σ σ' owed H.
    rewrite prepaid_cancel_contract_run in H. injection H as <- <- <-.
    apply prepaid_cancel_contract_run.
Qed.

Lemma cancel_contract_twice_witness :
  let self := Contract.mk (Some jan_15_2023) (Some 0%nat) in
  exists (self' : Contract.t) (owed : Q),
    Contract.cancel_contract self one_bill = Ok ((owed, self'), one_bill)
    /\ Contract.cancel_contract self' one_bill = Ok ((owed, self'), one_bill).
Proof.
  intros self. eexists _, _. split; [vm_compute; reflexivity|].
  exact (proj1 cancel_contract_twice self _ one_bill one_bill _ eq_refl).
Defined.

(** ** Prepaid contracts over a cycle *)

Lemma prepaid_bill_calls_run (calls : list Call) :
  forall (self : PrepaidContract.t) (σ : store) (l : loc) (b : Bill),
    PrepaidContract.bill self = Some l ->
    σ !! l = Some b ->
    let b' := BillOps.add_billed_minutes (total_minutes calls) b in
    prepaid_run (map PBillCall calls) self σ
    = Ok (match calls with
          | [] => self
          | _ :: _ => PrepaidContract.set_balance (BillOps.get_cost b') self
          end, <[l := b']> σ).
Proof.
  induction calls as [|c calls IH]; intros self σ l b Hbill Hl.
  - simpl. rewrite add_billed_minutes_0, insert_id by exact Hl. reflexivity.
  - cbn [map prepaid_run prepaid_step total_minutes fold_right].
    fold (total_minutes calls).
    rewrite (bind_Ok _ _ _ _ _ (prepaid_bill_call_run c self σ l b Hbill Hl)).
    rewrite (IH (PrepaidContract.set_balance _ self) _ l _ Hbill
               (lookup_insert_eq _ _ _)).
    rewrite insert_insert_eq, add_billed_minutes_add.
    destruct calls as [|c' calls]; [|reflexivity].
    simpl. rewrite Z.add_0_r. reflexivity.
Qed.

(** X8. One cycle of a prepaid contract on a bill at hand always
    succeeds.  The bill gets the rate [PREPAID_MINS_COST], the minutes of
    the calls as billed minutes, and as fixed cost what it had plus the
    balance carried over, which is the balance less 25 when the balance
    was above -10 and the balance otherwise.  After one call or more the
    balance of the contract is what [get_cost] gives on the bill; with no
    call it is the balance carried over. *)
Theorem prepaid_cycle_balance_is_bill_cost
  (m y : Z) (l : loc) (calls : list Call) (self : PrepaidContract.t)
  (σ : store) (b : Bill) :
  σ !! l = Some b ->
  let carried :=
    if PrepaidContract.Qgtb (PrepaidContract.balance self) (-10)
    then (PrepaidContract.balance self - 25)%Q
    else PrepaidContract.balance self in
  exists (self' : PrepaidContract.t) (b' : Bill),
    prepaid_cycle m y l calls self σ = Ok (self', <[l := b']> σ)
    /\ PrepaidContract.bill self' = Some l
    /\ billed_min b' = billed_min b + total_minutes calls
    /\ free_min b' = free_min b
    /\ min_rate b' = PREPAID_MINS_COST
    /\ fixed_cost b' = (fixed_cost b + carried)%Q
    /\ (calls <> [] -> PrepaidContract.balance self' = BillOps.get_cost b')
    /\ (calls = [] -> PrepaidContract.balance self' = carried).
Proof.
  intros Hl carried. unfold prepaid_cycle. cbn [prepaid_run prepaid_step].
  rewrite (bind_Ok _ _ _ _ _ (prepaid_new_month_run m y l self σ b Hl)).
  fold carried.
  rewrite (prepaid_bill_calls_run calls
             (PrepaidContract.set_balance carried
                (PrepaidContract.set_bill (Some l) self))
             _ l _ eq_refl (lookup_insert_eq _ _ _)).
  rewrite insert_insert_eq. eexists _, _. split; [reflexivity|].
  split; [destruct calls; reflexivity|].
  split; [reflexivity|]. split; [reflexivity|]. split; [reflexivity|].
  split; [reflexivity|]. split.
  - destruct calls; [congruence|reflexivity].
  - intros ->. reflexivity.
Qed.

Lemma prepaid_cycle_balance_is_bill_cost_witness :
  exists (self' : PrepaidContract.t) (b' : Bill),
    prepaid_cycle 1 2023 0%nat [mkCall 90] sample_prepaid one_bill
    = Ok (self', <[0%nat := b']> one_bill)
    /\ PrepaidContract.balance self' = BillOps.get_cost b'.
Proof.
  destruct (prepaid_cycle_balance_is_bill_cost 1 2023 0%nat [mkCall 90]
              sample_prepaid one_bill BillOps.__init__ eq_refl)
    as (self' & b' & Hrun & _ & _ & _ & _ & _ & Hcalls & _).
  exists self', b'. split; [exact Hrun|]. apply Hcalls. discriminate.
Defined.

Lemma prepaid_cycle_run
  (m y : Z) (l : loc) (calls : list Call) (self : PrepaidContract.t)
  (σ : store) (b : Bill) :
  σ !! l = Some b ->
  let carried := prepaid_carried (PrepaidContract.balance self) in
  let self1 := PrepaidContract.set_balance carried
                 (PrepaidContract.set_bill (Some l) self) in
  let b' := BillOps.add_billed_minutes (total_minutes calls)
              (BillOps.add_fixed_cost carried
                 (BillOps.set_rates "PREPAID" PREPAID_MINS_COST b)) in
  prepaid_cycle m y l calls self σ
  = Ok (match calls with
        | [] => self1
        | _ :: _ => PrepaidContract.set_balance (BillOps.get_cost b') self1
        end, <[l := b']> σ).
Proof.
  intros Hl carried self1 b'. unfold prepaid_cycle.
  cbn [prepaid_run prepaid_step].
  rewrite (bind_Ok _ _ _ _ _ (prepaid_new_month_run m y l self σ b Hl)).
  rewrite (prepaid_bill_calls_run calls self1 _ l _ eq_refl
             (lookup_insert_eq _ _ _)).
  rewrite insert_insert_eq. reflexivity.
Qed.

(** X9. A prepaid contract carries the cost of one bill to the next.
    After a cycle with one call or more on a first bill, [new_month] on a
    second bill at hand succeeds, leaves the first bill as it was, and
    adds to the fixed cost of the second bill the cost [c] of the first
    bill, less 25 when [c] is above -10; that amount is the new balance. *)
Theorem prepaid_carries_cost_over
  (m1 y1 m2 y2 : Z) (l1 l2 : loc) (calls : list Call)
  (self : PrepaidContract.t) (σ : store) (b1 b2 : Bill) :
  l1 <> l2 ->
  σ !! l1 = Some b1 ->
  σ !! l2 = Some b2 ->
  calls <> [] ->
  exists (self1 self2 : PrepaidContract.t) (b1' b2' : Bill),
    prepaid_cycle m1 y1 l1 calls self σ = Ok (self1, <[l1 := b1']> σ)
    /\ PrepaidContract.new_month m2 y2 l2 self1 (<[l1 := b1']> σ)
       = Ok (self2, <[l2 := b2']> (<[l1 := b1']> σ))
    /\ (<[l2 := b2']> (<[l1 := b1']> σ)) !! l1 = Some b1'
    /\ PrepaidContract.bill self2 = Some l2
    /\ PrepaidContract.balance self2 = prepaid_carried (BillOps.get_cost b1')
    /\ fixed_cost b2'
       = (fixed_cost b2 + prepaid_carried (BillOps.get_cost b1'))%Q
    /\ ((-10 < BillOps.get_cost b1')%Q ->
        PrepaidContract.balance self2 = (BillOps.get_cost b1' - 25)%Q)
    /\ ((BillOps.get_cost b1' <= -10)%Q ->
        PrepaidContract.balance self2 = BillOps.get_cost b1').
Proof.
  intros Hne Hl1 Hl2 Hcalls.
  destruct calls as [|c calls]; [congruence|].
  rewrite (prepaid_cycle_run m1 y1 l1 (c :: calls) self σ b1 Hl1). cbv zeta.
  set (b1' := BillOps.add_billed_minutes _ _).
  set (self1 := PrepaidContract.set_balance (BillOps.get_cost b1') _).
  set (carried := prepaid_carried (BillOps.get_cost b1')).
  exists self1,
    (PrepaidContract.set_balance carried
       (PrepaidContract.set_bill (Some l2) self1)),
    b1',
    (BillOps.add_fixed_cost carried
       (BillOps.set_rates "PREPAID" PREPAID_MINS_COST b2)).
  split; [reflexivity|]. split.
  { apply (prepaid_new_month_run m2 y2 l2 self1 (<[l1 := b1']> σ) b2).
    rewrite lookup_insert_ne by exact Hne. exact Hl2. }
  split.
  { rewrite lookup_insert_ne by congruence. apply lookup_insert_eq. }
  split; [reflexivity|]. split; [reflexivity|]. split; [reflexivity|].
  change (PrepaidContract.balance
            (PrepaidContract.set_balance carried
               (PrepaidContract.set_bill (Some l2) self1))) with carried.
  subst carried. unfold prepaid_carried. split.
  - intros Hgt. apply Qgtb_true in Hgt. now rewrite Hgt.
  - intros Hle. apply Qgtb_false in Hle. now rewrite Hle.
Qed.

Lemma prepaid_carries_cost_over_witness :
  let σ : store := <[1%nat := BillOps.__init__]> one_bill in
  exists (self1 self2 : PrepaidContract.t) (b1' b2' : Bill),
    prepaid_cycle 1 2023 0%nat [mkCall 90] sample_prepaid σ
    = Ok (self1, <[0%nat := b1']> σ)
    /\ PrepaidContract.new_month 2 2023 1%nat self1 (<[0%nat := b1']> σ)
       = Ok (self2, <[1%nat := b2']> (<[0%nat := b1']> σ))
    /\ fixed_cost b2'
       = (fixed_cost BillOps.__init__
          + prepaid_carried (BillOps.get_cost b1'))%Q.
Proof.
  intros σ.
  destruct (prepaid_carries_cost_over 1 2023 2 2023 0%nat 1%nat [mkCall 90]
              sample_prepaid σ BillOps.__init__ BillOps.__init__)
    as (self1 & self2 & b1' & b2' & Hcycle & Hmonth & _ & _ & _ & Hfixed & _);
    [discriminate | reflexivity | reflexivity | discriminate |].
  exists self1, self2, b1', b2'. split; [exact Hcycle|].
  split; [exact Hmonth | exact Hfixed].
Defined.

(** ** Rounding call by call *)

Lemma total_minutes_bounds (calls : list Call) :
  (total_duration calls <= 60 * inject_Z (total_minutes calls))%Q
  /\ (60 * inject_Z (total_minutes calls)
      <= total_duration calls + 60 * inject_Z (Z.of_nat (length calls)))%Q
  /\ (calls <> [] ->
      (60 * inject_Z (total_minutes calls)
       < total_duration calls + 60 * inject_Z (Z.of_nat (length calls)))%Q).
Proof.
  induction calls as [|c calls (IHlo & IHhi & _)].
  - cbv [total_minutes total_duration fold_right length Z.of_nat inject_Z].
    split; [lra|]. split; [lra|]. intros H. congruence.
  - cbn [total_minutes total_duration fold_right length].
    fold (total_minutes calls). fold (total_duration calls).
    rewrite Nat2Z.inj_succ, <- Z.add_1_r, !inject_Z_plus.
    pose proof (ceil60_upper (duration c)) as Hup.
    pose proof (ceil60_lower (duration c)) as Hlo.
    unfold Z.sub in Hlo. rewrite inject_Z_plus in Hlo.
    change (inject_Z (- (1))) with (-1)%Q in Hlo.
    change (inject_Z 1) with 1%Q.
    repeat split; intros; lra.
Qed.

(** X10. The default [bill_call] rounds each call up on its own.  Over
    the calls of a cycle, on a bill bound and at hand, the billed minutes
    added cover the seconds of the calls together, are not fewer than
    rounding those seconds up once would give, and exceed the seconds by
    less than one minute for each call. *)
Theorem default_bill_calls_rounding
  (calls : list Call) (self : Contract.t) (σ : store) (l : loc) (b : Bill) :
  Contract.bill self = Some l ->
  σ !! l = Some b ->
  exists b' : Bill,
    default_bill_calls calls self σ = Ok (self, <[l := b']> σ)
    /\ let added := billed_min b' - billed_min b in
       (total_duration calls <= 60 * inject_Z added)%Q
       /\ ceil60 (total_duration calls) <= added
       /\ (calls <> [] ->
           (60 * inject_Z added
            < total_duration calls + 60 * inject_Z (Z.of_nat (length calls)))%Q).
Proof.
  intros Hbill Hl.
  rewrite (default_bill_calls_run calls self σ l b Hbill Hl).
  eexists. split; [reflexivity|]. cbv zeta.
  cbn [billed_min BillOps.add_billed_minutes].
  replace (billed_min b + total_minutes calls - billed_min b)
    with (total_minutes calls) by lia.
  destruct (total_minutes_bounds calls) as (Hlo & _ & Hhi).
  split; [exact Hlo|]. split; [|exact Hhi].
  apply ceil60_least. exact Hlo.
Qed.

Lemma default_bill_calls_rounding_witness :
  let self := Contract.mk (Some jan_15_2023) (Some 0%nat) in
  exists b' : Bill,
    default_bill_calls [mkCall 61; mkCall 61] self one_bill
    = Ok (self, <[0%nat := b']> one_bill)
    /\ ceil60 (total_duration [mkCall 61; mkCall 61])
       <= billed_min b' - billed_min BillOps.__init__.
Proof.
  intros self.
  destruct (default_bill_calls_rounding [mkCall 61; mkCall 61] self one_bill
              0%nat BillOps.__init__ eq_refl eq_refl)
    as (b' & Hrun & _ & Hceil & _).
  exists b'. split; [exact Hrun | exact Hceil].
Defined.
